(** * gwb-dc-inversions: the notebooks as data, and what their scripts compute

    The repository is a set of Jupyter notebooks.  This development embeds

    - the notebooks themselves: their cells in order, the markdown cells as
      their lines of text and the code cells as Python syntax trees
      ([expr], [stmt]), transcribed cell by cell;
    - a provenance interpreter ([run_notebook]) that executes the code cells
      against uninterpreted libraries: every object is represented by the
      expression that created it, with imported names resolved to the module
      they were imported from;
    - the two pieces of arithmetic the smooth-inversion script does itself:
      the survey construction loop ([define_survey]) and the assignment of
      uncertainties ([assign_uncertainties]). *)

From Stdlib Require Import Ascii QArith Qcanon Qcabs.
From stdpp Require Import base option list sorting numbers strings gmap.

Local Open Scope string_scope.
Local Open Scope list_scope.
Local Open Scope stdpp_scope.
Local Open Scope nat_scope.
Set Warnings "-register-all".

(** ** Python syntax of the code cells *)

Inductive binop := Add | Sub | Mul | Pow | IsNot.

(** [EFloat m e] is the decimal literal [m * 10^e]: [1.1] is [EFloat 11 (-1)],
    [5.] is [EFloat 5 0], [1e-3] is [EFloat 1 (-3)].  A parenthesised
    expression is the expression itself; [ESlice] only occurs as the index
    of an [ESubscript]. *)
Inductive expr :=
| EName (x : string)
| ENone
| EBool (b : bool)
| EInt (n : Z)
| EFloat (m e : Z)
| EStr (s : string)
| EAttr (e : expr) (a : string)
| ECall (f : expr) (args : list expr) (kwargs : list (string * expr))
| EBin (op : binop) (l r : expr)
| ENeg (e : expr)
| EList (es : list expr)
| ETuple (es : list expr)
| EDict (items : list (expr * expr))
| ESubscript (e : expr) (i : expr)
| ESlice (lo hi : expr).

(** Statements.  [SMagic] is an IPython line magic, [SComment] a comment line
    (kept because two claims are about what is commented out).  [SWhile],
    [SDef] and [SClass] are part of the language although no notebook of the
    repository uses them. *)
Inductive stmt :=
| SImport (module : string) (asname : option string)
| SFromImport (module : string) (names : list (string * option string))
| SAssign (target : expr) (value : expr)
| SExpr (e : expr)
| SFor (var : string) (iter : expr) (body : list stmt)
| SIf (cond : expr) (thn els : list stmt)
| SWhile (cond : expr) (body : list stmt)
| SDef (name : string) (params : list string) (body : list stmt)
| SClass (name : string) (bases : list expr) (body : list stmt)
| SMagic (line : string)
| SComment (text : string).

Inductive cell :=
| Markdown (source : list string)
| Code (source : list stmt).

Record notebook := Notebook {
  nb_file : string;
  nb_title : string;
  nb_cells : list cell
}.

(** Shorthands used in the transcriptions: a call with positional arguments
    only, a method call on a variable, and [e ~> a] for the attribute [e.a]. *)
Definition call0 (f : expr) (args : list expr) : expr := ECall f args [].

Definition method (obj : string) (m : string) (args : list expr)
    (kwargs : list (string * expr)) : expr :=
  ECall (EAttr (EName obj) m) args kwargs.

Notation "e ~> a" := (EAttr e a) (at level 25, left associativity).

(** The double-quote character, for the one markdown line that contains it. *)
Definition dq : string := String (Ascii.ascii_of_nat 34) EmptyString.

(** ** The notebooks, cell by cell *)

(** The first notebook of src/unnamed/part_000. *)
Definition parametric_inversion_app : notebook := Notebook "src/unnamed/part_000" "Parametric 1D DC Resistivity Inversion" [
  (* cell 0 *)
  Markdown [
    "# Parametric 1D DC Resistivity Inversion"
  ];
  (* cell 1 *)
  Code [
    SFromImport "utils.DCResistivity" [("DC1D3LayerApp", None)];
    SAssign (EName "dc_app") (call0 (EName "DC1D3LayerApp") [])
  ];
  (* cell 2 *)
  Markdown [
    "# Purpose";
    "";
    "Here, we load DC sounding data (VES format), interpret the data and invert the data to recover a 1D resistivity model. The steps for setting up and running and inversion and explained. In this notebook, we specify the number of layers responsible for the data values. The inversion will adjust the thickness and resistivity of these layers when recovering a resistivity model. The final result of the notebook is a 1D resistivity model that has approximately the same structures as the true geology.";
    "";
    "## Outline";
    "This notebook is used to complete the following steps:";
    "- Step 1: Load observed data";
    "- Step 2: Manually fit observed VES data with 3 layers";
    "- Step 3: Run Parametric Inversion";
    "- Step 4: Run inversion"
  ];
  (* cell 3 *)
  Markdown [
    "## Step 1: Load observed data";
    "";
    "- **filename:** file name for the observed data. The file is a 'csv' file. It must contain columns named 'AB/2 (m)', 'MN/2 (m)' and 'App. Res. (Ohm m).";
    "- **load:** When selected, the notebook will try to load the data file"
  ];
  (* cell 4 *)
  Code [
    SExpr (method "dc_app" "interact_load_obs" [] [])
  ];
  (* cell 5 *)
  Markdown [
    "## Step 2: Manually fit observed VES sounding data using 3-layer app";
    "";
    "Here, we try a *curve fitting* approach to fit the sounding curve with 3 layers. The Earth may have more complicated structures or have more layers, but this is a good way to explain the most important features in the data. The adjustable parameters for this step are:";
    "";
    "- $\rho_1$: resistivity of the top layer";
    "- $\rho_2$: resistivity of the second layer";
    "- $\rho_3$: resistivity of the last layer";
    "- $h_1$: thickness of the top layer";
    "- $h_2$: thickness of the second layer";
    "";
    "(The last layer has an infinite thickness)"
  ];
  (* cell 6 *)
  Code [
    SExpr (method "dc_app" "interact_1d_layer" [] [])
  ];
  (* cell 7 *)
  Markdown [
    "## Step 3: Run Parametric Inversion";
    "";
    "**Assigning Uncertainties**";
    "";
    "The uncertainties are an estimate of the level of noise on your data. If your data have more noise (error bars are larger), you must assign larger uncertainties. The equation for the uncertainty you assign to each data value is:";
    "";
    "$$ \text{uncertainty} = 0.01 \times \text{percentage}\times|d^{obs}| + \text{floor}$$";
    "";
    "The";
    "";
    "- `percentage (%)`: percentage uncertainty";
    "- `floor (ohm-m)`: floor uncertainty";
    "";
    "For apparent resistivity data, it is common to choose a percentage between 2%-10%. The floor value is usually something very small; less than 0.0001 $\Omega m$";
    "";
    "**Inversion Parameters**";
    "";
    "Paramters specific to running the inversion are:";
    "";
    "- $\rho_0$: initial resistivity model";
    "- $h_0$: initial thicknesses of all the layers. The bottom layer has infinite thickness.";
    "- $n_{layers}$: Number of layers you think there are";
    "- `maxIter`: maximum number of iteration (10-30 is ideal)";
    "- `run`: run inversion if this is checked";
    "";
    "Here are some things to consider when choosing these parameters:";
    "";
    "- The average resistivity and thickness you used to explain the data in step 2 can be good estimates for $\rho_0$ and $h_0$";
    "- The number of segments in the sounding curve can be used to determine how many layers should be used. Using more layers does not guarantee a better result.";
    "- If the result does not fit the data, the number of layers could be wrong or the data cannot be explained with a 1D model."
  ];
  (* cell 8 *)
  Code [
    SExpr (method "dc_app" "interact_run_inversion" [] [])
  ];
  (* cell 9 *)
  Markdown [
    "## Step 4: Explore inversion results";
    "We can look at the model for each inversion iteration to see how the model is iteratively updated";
    "";
    "- `iteration`: inversion iteration"
  ];
  (* cell 10 *)
  Code [
    SExpr (method "dc_app" "interact_plot_inversion_results" [] [])
  ]
].

(** The second notebook of src/unnamed/part_000. *)
Definition smooth_inversion_app : notebook := Notebook "src/unnamed/part_000" "Smooth 1D DC Resistivity Inversion" [
  (* cell 0 *)
  Markdown [
    "# Smooth 1D DC Resistivity Inversion"
  ];
  (* cell 1 *)
  Code [
    SFromImport "utils.DCResistivity" [("DC1DInversionApp", None)];
    SAssign (EName "dc_app") (call0 (EName "DC1DInversionApp") [])
  ];
  (* cell 2 *)
  Markdown [
    "# Purpose";
    "";
    "Here, we load DC sounding data (VES format), interpret the data and invert the data to recover a 1D resistivity model. The steps for setting up and running and inversion and explained. The final result of the notebook is a smooth 1D resistivity model that has approximately the same structures as the true geology.";
    "";
    "## Outline";
    "This notebook is used to complete the following steps:";
    "- Step1: Load observed data";
    "- Step2: Plot observed data";
    "- Step3: Set layer thicknesses";
    "- Step4: Set uncertainty";
    "- Step5: Run inversion";
    "- Step6: Explore inversion results";
    "- Step7: Run inversion to compute DOI index";
    "- Step8: Plot DOI index"
  ];
  (* cell 3 *)
  Markdown [
    "## Step 1: Load observed data";
    "";
    "- **filename:** file name for the observed data. The file is a 'csv' file. It must contain columns named 'AB/2 (m)', 'MN/2 (m)' and 'App. Res. (Ohm m).";
    "- **load:** When selected, the notebook will try to load the data file"
  ];
  (* cell 4 *)
  Code [
    SExpr (method "dc_app" "interact_load_obs" [] [])
  ];
  (* cell 5 *)
  Markdown [
    "## Step 2: Plot observed data";
    "";
    "- **plot type:** apparent resistivity can be represented by a *sounding curve* or *histogram*.";
    "- **aspect ratio:** aspect ratio for the plot. This allows you to change the size of the picture."
  ];
  (* cell 6 *)
  Code [
    SExpr (method "dc_app" "interact_plot_obs_data" [] [])
  ];
  (* cell 7 *)
  Markdown [
    "## Step 3: Set a layer thicknesses";
    "";
    "The inversion will recover a resistivity value for each layer you define here. It is important that the number of layers you choose and their thicknesses are appropriate. The adjustable parameters are defined below:";
    "";
    "- **dz_min:** minimum layer thickness (thickness of top layer)";
    "- **n_layer:** number of layers";
    "- **factor:** geometric factor which we increase thickness with depth";
    "";
    "The following are some things to consider when choosing the number of layers and their thicknesses:";
    "";
    "- The value of *dz_min* should be much smaller than the smallest AB/2 value (5-10 times smaller)";
    "- The maximum depth for the layers you define should be at least 2 times larger than your biggest AB/2 value";
    "- Most of the time, you can get reasonable results by using between 30-60 layers"
  ];
  (* cell 8 *)
  Code [
    SExpr (method "dc_app" "interact_set_mesh" [] [])
  ];
  (* cell 9 *)
  Markdown [
    "## Step 4: Set uncertainty";
    "";
    "The uncertainties are an estimate of the level of noise on your data. If your data have more noise (error bars are larger), you must assign larger uncertainties. The equation for the uncertainty you assign to each data value is:";
    "";
    "$$ \text{uncertainty} = 0.01 \times \text{percentage}\times|d^{obs}| + \text{floor}$$";
    "";
    "- **percentage (%):** percentage uncertainty";
    "- **floor (ohm-m):** floor uncertainty";
    "";
    "For apparent resistivity data, it is common to choose a percentage between 2%-10%. The floor value is usually something very small; less than 0.0001 $\Omega m$"
  ];
  (* cell 10 *)
  Code [
    SExpr (method "dc_app" "interact_set_uncertainty" [] [])
  ];
  (* cell 11 *)
  Markdown [
    "## Step 5: Run inversion";
    "";
    "Here, we define parameters necessary to complete the inversion. These parameters are:";
    "";
    "- $\rho_0$: initial resistivity model";
    "- $\rho_{ref}$: reference resistivity model";
    "- $\alpha_s$: controls how much the inversion wants to recover a model similar to the reference model";
    "- $\alpha_z$: controls how much the inversion wants to recover a model that is smooth";
    "- `maxIter`: maximum number of iteration (10-20 is ideal";
    "- `chifact`: chifactor for the target misfit";
    "- `beta0_ratio`: ratio to set the initial beta";
    "- `coolingFactor`: cooling factor to cool beta";
    "- `n_iter_per_beta`: # of interation for each beta value ";
    "- `run`: run inversion if this is checked";
    "";
    "Here are some things to consider when choosing these parameters:";
    "";
    "- If you make $\alpha_s$ much larger than $\alpha_z$, the inversion will try very hard to give you an answer that is similar to the reference model. If you make $\alpha_z$ much larger than $\alpha_s$, the inversion will try very hard to find a smooth model that explains the data. To start, it is good to set $\alpha_s = 0.01 \times \alpha_z$";
    "- If you set *coolingFactor* to a number equal or larger than 4, you should set the *n_iter_per_beta* to a value of 2. This makes sure you solve the problem accurately.";
    "- If the inversion only requires a few iterations, your uncertainties may be too large.";
    "- If your inversion does not reach *target misfit*, your uncertainties may be too small. The number of layers and their thicknessess may also be incorrect."
  ];
  (* cell 12 *)
  Code [
    SExpr (method "dc_app" "interact_run_inversion" [] [])
  ];
  (* cell 13 *)
  Markdown [
    "## Step 6: Explore inversion results";
    "";
    "- `iteration`: inversion iteration";
    "- `curve type`:type of the curve (this is active when `plot type`=`misfit_curve`)";
    "- `scale`: linear or log scale (this is active when `plot type`=`misfit_curve`)";
    "- `plot type`: type of the plot"
  ];
  (* cell 14 *)
  Code [
    SExpr (method "dc_app" "interact_plot_inversion_results" [] [])
  ];
  (* cell 15 *)
  Markdown [
    "## Step 7: Run inversion to compute DOI index";
    "";
    "Depth of investigation (DOI) index can be computed by following equation (Oldenburg and Li, 1999):";
    "";
    "$$ \text{doi index} = \frac{m^1-m^2}{m_{ref}^1-m_{ref}^2}$$";
    "";
    "where ";
    "";
    "- $m^1$: inversion model 1 (from Step5)";
    "- $m^2$: inversion model 2 (same inversion parameters with model 1 except for `m0` and `mref`";
    "- $m_{ref}^1$: reference model 1 (used for Step 5)";
    "- $m_{ref}^2$: reference model 2 (=$m_{ref}^1 \times$ factor)";
    "";
    "Here a constant factor is multiplied to generate a new reference model. ";
    "Below app will run inversion to obtain another inversion model ($m^2$), which will allow us to ";
    "compute DOI index in the following app. ";
    "";
    "### Parameters";
    "- `factor`: constant factor to compute a new reference model";
    "- `run`: if checked, then a new inverion will run"
  ];
  (* cell 16 *)
  Code [
    SExpr (method "dc_app" "interact_run_doi" [] [])
  ];
  (* cell 17 *)
  Markdown [
    "##  Step 8: Plot DOI index";
    "";
    "";
    "- `doi_level`: level of the doi index"
  ];
  (* cell 18 *)
  Code [
    SExpr (method "dc_app" "interact_plot_doi_results" [] [])
  ];
  (* cell 19: an empty code cell *)
  Code []
].

(** src/notebooks/DC-1d-smooth-inversion-code.ipynb. *)
Definition DC_1d_smooth_inversion_code : notebook := Notebook "src/notebooks/DC-1d-smooth-inversion-code.ipynb" "DC Resistivity: 1D Resistivity Inversion" [
  (* cell 0 *)
  Markdown [
    "# DC Resistivity: 1D Resistivity Inversion";
    "";
    "";
    "In this notebook, we:";
    "- load Schlumberger sounding data from a text file";
    "- plot the raw apparent resistivity data as a function of electrode separation";
    "- assign uncertainties to the data";
    "- recover an electrical resistivity model for a specified number of layers";
    "- plot the recovered resistivity model and compare observed and predicted data";
    "";
    ""
  ];
  (* cell 1 *)
  Markdown [
    "## Import Modules"
  ];
  (* cell 2 *)
  Code [
    SImport "os" None;
    SImport "numpy" (Some "np");
    SImport "matplotlib" (Some "mpl");
    SImport "matplotlib.pyplot" (Some "plt");
    SImport "pandas" (Some "pd");
    SFromImport "discretize" [("TensorMesh", None)];
    SFromImport "SimPEG"
      [("maps", None); ("data", None); ("data_misfit", None); ("regularization", None);
       ("optimization", None); ("inverse_problem", None); ("inversion", None);
       ("directives", None)];
    SFromImport "SimPEG.electromagnetics.static" [("resistivity", Some "dc")];
    SFromImport "SimPEG.electromagnetics.static.utils.StaticUtils" [("plot_layer", None)];
    SFromImport "SimPEG.utils" [("mkvc", None)];
    SExpr (call0 (EName "mpl" ~> "rcParams" ~> "update")
             [EDict [(EStr "font.size", EInt 14)]])
  ];
  (* cell 3 *)
  Markdown [
    "## User Defined Paramters for the Notebook";
    "";
    "";
    "Here, the user defines paramters required to run the notebook. These parameters are as follows:";
    "- **data_filename:** The file path to a csv file containing the sounding data";
    "- **half_AB_column:** The column in the csv file that has the AB/2 values.";
    "- **half_MN_column:** The column in the csv file that has the MN/2 values.";
    "- **apparent_resistivity_column:** The column in the csv file that has the apparent resistivity values.";
    "";
    "";
    "- **uncertainty_column:** The column in the csv file that has the uncertainty, or the keyword `None`.";
    "- **uncertainty_floor:** The floor uncertainty to be added to each datum";
    "- **uncertainty_percent:** The percent uncertainty to be added to each datum";
    "- **chi_factor:** Controls how closely we fit the data in the inversion.";
    "";
    "";
    "- **layer_thicknesses:** Layer thicknesses in meters. Defined from top layer to bottom"
  ];
  (* cell 4 *)
  Code [
    SComment "# Define the file path to the data file. Also define the AB/2, MN/2 and apparent resistivity columns.";
    SComment "# Recall that python counts starting at 0";
    SAssign (EName "data_filename") (EStr "./assets/Mawlamyine_data_locations_3.csv");
    SAssign (EName "half_AB_column") (EStr "AB/2 (m)");
    SAssign (EName "half_MN_column") (EStr "MN/2 (m)");
    SAssign (EName "apparent_resistivity_column") (EStr "App. Res. (Ohm m)");
    SComment "# Define the uncertainties for the inversion.";
    SComment "# Either use the uncertainty from the data file,";
    SAssign (EName "uncertainty_column") ENone;
    SComment "# or define the floor and percent uncertainty you would like to apply to apparent resistivity data";
    SAssign (EName "uncertainty_floor") (EFloat 5 0);
    SAssign (EName "uncertainty_percent") (EFloat 5 0);
    SAssign (EName "chi_factor") (EFloat 10 (-1));
    SComment "# Define layer thicknesses as a numpy array";
    SAssign (EName "layer_thicknesses")
      (EBin Mul (EInt 5)
         (EBin Pow (EFloat 11 (-1)) (call0 (EName "np" ~> "arange") [EInt 21])));
    SAssign (EName "halfspace_resistivity") (EFloat 300 0)
  ];
  (* cell 5 *)
  Markdown [
    "## Load Data, Define Survey and Plot";
    "";
    "Here we load the observed data, define the DC survey geometry and plot the";
    "data values."
  ];
  (* cell 6 *)
  Code [
    SComment "# Load data";
    SAssign (EName "df") (call0 (EName "pd" ~> "read_csv") [EName "data_filename"]);
    SComment "# Extract source and receiver electrode locations and the observed data";
    SAssign (EName "half_AB_separations") (ESubscript (EName "df") (EName "half_AB_column"));
    SAssign (EName "half_MN_separations") (ESubscript (EName "df") (EName "half_MN_column"));
    SAssign (EName "dobs")
      (ESubscript (EName "df") (EName "apparent_resistivity_column") ~> "values");
    SComment "# Define survey";
    SAssign (ETuple [EName "unique_tx"; EName "k"])
      (ECall (EName "np" ~> "unique") [EName "half_AB_separations"]
         [("return_index", EBool true)]);
    SAssign (EName "n_sources") (call0 (EName "len") [EName "k"]);
    SAssign (EName "k") (call0 (EName "np" ~> "sort") [EName "k"]);
    SAssign (EName "k")
      (ESubscript (EName "np" ~> "r_")
         (ETuple [EName "k"; EBin Add (call0 (EName "len") [EName "dobs"]) (EInt 1)]));
    SAssign (EName "source_list") (EList []);
    SFor "ii" (call0 (EName "range") [EInt 0; EName "n_sources"])
      [SComment "# MN electrode locations for receivers. Each is an (N, 3) numpy array";
       SAssign (EName "M_locations")
         (ENeg (ESubscript (EName "half_MN_separations")
                  (ESlice (ESubscript (EName "k") (EName "ii"))
                          (ESubscript (EName "k") (EBin Add (EName "ii") (EInt 1))))));
       SAssign (EName "M_locations")
         (ESubscript (EName "np" ~> "c_")
            (ETuple [EName "M_locations";
                     call0 (EName "np" ~> "zeros")
                       [ETuple [ESubscript (call0 (EName "np" ~> "shape") [EName "M_locations"])
                                  (EInt 0);
                                EInt 2]]]));
       SAssign (EName "N_locations")
         (ESubscript (EName "half_MN_separations")
            (ESlice (ESubscript (EName "k") (EName "ii"))
                    (ESubscript (EName "k") (EBin Add (EName "ii") (EInt 1)))));
       SAssign (EName "N_locations")
         (ESubscript (EName "np" ~> "c_")
            (ETuple [EName "N_locations";
                     call0 (EName "np" ~> "zeros")
                       [ETuple [ESubscript (call0 (EName "np" ~> "shape") [EName "N_locations"])
                                  (EInt 0);
                                EInt 2]]]));
       SAssign (EName "receiver_list")
         (EList [call0 (EName "dc" ~> "receivers" ~> "Dipole")
                   [EName "M_locations"; EName "N_locations"]]);
       SComment "# AB electrode locations for source. Each is a (1, 3) numpy array";
       SAssign (EName "A_location")
         (ESubscript (EName "np" ~> "r_")
            (ETuple [ENeg (ESubscript (EName "half_AB_separations")
                             (ESubscript (EName "k") (EName "ii")));
                     EFloat 0 0; EFloat 0 0]));
       SAssign (EName "B_location")
         (ESubscript (EName "np" ~> "r_")
            (ETuple [ESubscript (EName "half_AB_separations")
                       (ESubscript (EName "k") (EName "ii"));
                     EFloat 0 0; EFloat 0 0]));
       SExpr (method "source_list" "append"
                [call0 (EName "dc" ~> "sources" ~> "Dipole")
                   [EName "receiver_list"; EName "A_location"; EName "B_location"]] [])];
    SComment "# Define survey";
    SAssign (EName "survey") (call0 (EName "dc" ~> "Survey") [EName "source_list"]);
    SComment "# Compute the A, B, M and N electrode locations.";
    SExpr (method "survey" "getABMN_locations" [] []);
    SComment "# Plot apparent resistivities on sounding curve as a function of Wenner separation";
    SComment "# parameter.";
    SAssign (EName "electrode_separations")
      (call0 (EName "np" ~> "sqrt")
         [ECall (EName "np" ~> "sum")
            [EBin Pow (EBin Sub (EName "survey" ~> "m_locations")
                                (EName "survey" ~> "n_locations"))
                      (EInt 2)]
            [("axis", EInt 1)]]);
    SAssign (ETuple [EName "fig"; EName "ax"])
      (ECall (EName "plt" ~> "subplots") [EInt 1; EInt 1]
         [("figsize", ETuple [EInt 11; EInt 5])]);
    SExpr (ECall (EName "ax" ~> "loglog") [EName "half_AB_separations"; EName "dobs"; EStr "b"]
             [("lw", EInt 2)]);
    SExpr (method "ax" "set_xlabel" [EStr "AB/2 (m)"] []);
    SExpr (method "ax" "set_ylabel" [EStr "Apparent Resistivity ($\Omega m$)"] []);
    SExpr (method "ax" "grid" [EBool true]
             [("which", EStr "both"); ("ls", EStr "--"); ("c", EStr "gray")])
  ];
  (* cell 7 *)
  Markdown [
    "## Assign Uncertainties";
    "";
    "Inversion with SimPEG requires that we define uncertainties on our data. The";
    "uncertainty represents our estimate of the standard deviation of the noise on";
    "our data."
  ];
  (* cell 8 *)
  Code [
    SIf (EBin IsNot (EName "uncertainty_column") ENone)
      [SAssign (EName "uncertainties")
         (ESubscript (EName "df") (EName "uncertainty_column") ~> "values")]
      [SAssign (EName "uncertainties")
         (EBin Add (EName "uncertainty_floor")
            (EBin Mul (EBin Mul (EFloat 1 (-2)) (EName "uncertainty_percent"))
                      (call0 (EName "np" ~> "abs") [EName "dobs"])))]
  ];
  (* cell 9 *)
  Markdown [
    "## Define Data";
    "";
    "Here is where we define the data that are inverted. The data are defined by";
    "the survey, the observation values and the uncertainties."
  ];
  (* cell 10 *)
  Code [
    SAssign (EName "data_object")
      (ECall (EName "data" ~> "Data") [EName "survey"]
         [("dobs", EName "dobs"); ("uncertainty", EName "uncertainties")])
  ];
  (* cell 11 *)
  Markdown [
    "## Define a Starting and Reference Model";
    "";
    "Here, we create starting and/or reference models for the inversion as";
    "well as the mapping from the model space to the active cells. Starting and";
    "reference models can be a constant background value or contain a-priori";
    "structures. Here, the starting model is log(1000) Ohm meters.";
    "";
    "Define log-resistivity values for each layer since our model is the";
    "log-resistivity. Don't make the values 0!";
    "Otherwise the gradient for the 1st iteration is zero and the inversion will";
    "not converge."
  ];
  (* cell 12 *)
  Code [
    SComment "# Defines layered Earth";
    SAssign (EName "mesh")
      (call0 (EName "TensorMesh")
         [EList [ESubscript (EName "np" ~> "r_")
                   (ETuple [EName "layer_thicknesses";
                            ESubscript (EName "layer_thicknesses") (ENeg (EInt 1))])];
          EStr "0"]);
    SComment "# Define model. A resistivity (Ohm meters) or conductivity (S/m) for each layer.";
    SAssign (EName "starting_model")
      (EBin Mul (call0 (EName "np" ~> "log") [EName "halfspace_resistivity"])
                (call0 (EName "np" ~> "ones") [EName "mesh" ~> "nC"]));
    SComment "# Define mapping from model to active cells.";
    SAssign (EName "model_map")
      (EBin Mul (call0 (EName "maps" ~> "IdentityMap") [EName "mesh"])
                (call0 (EName "maps" ~> "ExpMap") []))
  ];
  (* cell 13 *)
  Markdown [
    "## Define the Physics";
    "";
    "Here we define the physics of the problem using the DCSimulation_1D class.";
    ""
  ];
  (* cell 14 *)
  Code [
    SAssign (EName "simulation")
      (ECall (EName "dc" ~> "simulation_1d" ~> "DCSimulation_1D") []
         [("survey", EName "survey"); ("rhoMap", EName "model_map");
          ("thicknesses", EName "layer_thicknesses");
          ("data_type", EStr "apparent_resistivity")])
  ];
  (* cell 15 *)
  Markdown [
    "## Define Inverse Problem";
    "";
    "The inverse problem is defined by 3 things:";
    "";
    "    1) Data Misfit: a measure of how well our recovered model explains the field data";
    "    2) Regularization: constraints placed on the recovered model and a priori information";
    "    3) Optimization: the numerical approach used to solve the inverse problem";
    "";
    ""
  ];
  (* cell 16 *)
  Code [
    SComment "# Define the data misfit. Here the data misfit is the L2 norm of the weighted";
    SComment "# residual between the observed data and the data predicted for a given model.";
    SComment "# The weighting is defined by the reciprocal of the uncertainties.";
    SAssign (EName "dmis")
      (ECall (EName "data_misfit" ~> "L2DataMisfit") []
         [("simulation", EName "simulation"); ("data", EName "data_object")]);
    SComment "# Define the regularization (model objective function)";
    SAssign (EName "reg")
      (ECall (EName "regularization" ~> "Simple") [EName "mesh"]
         [("alpha_s", EFloat 1 (-3)); ("alpha_x", EFloat 1 0);
          ("mref", EName "starting_model")]);
    SComment "# Create model weights based on sensitivity matrix (sensitivity weighting). This is";
    SComment "# done to counteract the inversion's desire to place structures only at regions";
    SComment "# of very high sensitivity.";
    SComment "# wr = np.sum(simulation.getJ(starting_model)**2, axis=0)**0.5";
    SComment "# wr = (wr/np.max(np.abs(wr)))";
    SComment "# reg.cell_weights = wr  # include in regularization";
    SComment "# Define how the optimization problem is solved. Here we will use an inexact";
    SComment "# Gauss-Newton approach that employs the conjugate gradient solver.";
    SAssign (EName "opt")
      (ECall (EName "optimization" ~> "InexactGaussNewton") []
         [("maxIter", EInt 30); ("maxIterCG", EInt 20); ("print_type", EStr "ubc")]);
    SComment "# Define the inverse problem";
    SAssign (EName "inv_prob")
      (call0 (EName "inverse_problem" ~> "BaseInvProblem")
         [EName "dmis"; EName "reg"; EName "opt"])
  ];
  (* cell 17 *)
  Markdown [
    "## Define Inversion Directives";
    "";
    "Here we define any directives that are carried out during the inversion. This";
    "includes the cooling schedule for the trade-off parameter (beta), stopping";
    "criteria for the inversion and saving inversion results at each iteration.";
    "";
    ""
  ];
  (* cell 18 *)
  Code [
    SAssign (EName "starting_resistivity") (EName "starting_model");
    SExpr (call0 (EName "print") [call0 (EName "np" ~> "exp") [EName "starting_resistivity"]])
  ];
  (* cell 19 *)
  Code [
    SComment "# Defining a starting value for the trade-off parameter (beta) between the data";
    SComment "# misfit and the regularization.";
    SAssign (EName "starting_beta")
      (ECall (EName "directives" ~> "BetaEstimate_ByEig") [] [("beta0_ratio", EFloat 1 0)]);
    SComment "# Set the rate of reduction in trade-off parameter (beta) each time the";
    SComment "# the inverse problem is solved. And set the number of Gauss-Newton iterations";
    SComment "# for each trade-off paramter value.";
    SAssign (EName "beta_schedule")
      (ECall (EName "directives" ~> "BetaSchedule") []
         [("coolingFactor", EFloat 2 0); ("coolingRate", EFloat 1 0)]);
    SComment "# Apply and update sensitivity weighting as the model updates";
    SAssign (EName "update_sensitivity_weights")
      (call0 (EName "directives" ~> "UpdateSensitivityWeights") []);
    SComment "# Options for outputting recovered models and predicted data for each beta.";
    SAssign (EName "save_iteration")
      (call0 (EName "directives" ~> "SaveOutputDictEveryIteration") []);
    SComment "# Setting a stopping criteria for the inversion.";
    SAssign (EName "target_misfit")
      (ECall (EName "directives" ~> "TargetMisfit") [] [("chifact", EInt 1)]);
    SComment "# The directives are defined as a list.";
    SAssign (EName "directives_list")
      (EList [EName "starting_beta"; EName "beta_schedule";
              EName "save_iteration"; EName "target_misfit"])
  ];
  (* cell 20 *)
  Markdown [
    "## Running the Inversion";
    "";
    "To define the inversion object, we need to define the inversion problem and";
    "the set of directives. We can then run the inversion.";
    "";
    "";
    ""
  ];
  (* cell 21 *)
  Code [
    SComment "# Here we combine the inverse problem and the set of directives";
    SAssign (EName "inv")
      (call0 (EName "inversion" ~> "BaseInversion") [EName "inv_prob"; EName "directives_list"]);
    SComment "# Run the inversion";
    SAssign (EName "recovered_model") (method "inv" "run" [EName "starting_model"] [])
  ];
  (* cell 22 *)
  Code [
    SComment "# Inversion result from Mon DRD";
    SAssign (EName "res_tmp")
      (call0 (EName "np" ~> "array")
         [EList [EFloat 3484 (-1); EFloat 7229 (-1); EInt 282; EFloat 1008 (-1);
                 EFloat 514 (-1); EFloat 1708 (-1); EFloat 311 (-1); EFloat 1843 (-1)]]);
    SAssign (EName "thick_tmp")
      (call0 (EName "np" ~> "array")
         [EList [EFloat 14 (-1); EFloat 16 (-1); EFloat 14 (-1); EFloat 121 (-1);
                 EFloat 114 (-1); EFloat 251 (-1); EFloat 542 (-1)]]);
    SAssign (EName "plotting_mesh_tmp")
      (call0 (EName "TensorMesh")
         [EList [ESubscript (EName "np" ~> "r_") (ETuple [EName "thick_tmp"; EInt 200])];
          EStr "0"])
  ];
  (* cell 23 *)
  Markdown [
    "## Examining the Results";
    "";
    ""
  ];
  (* cell 24 *)
  Code [
    SComment "# Plot recovered model";
    SAssign (ETuple [EName "fig"; EName "ax"])
      (ECall (EName "plt" ~> "subplots") [EInt 1; EInt 1]
         [("figsize", ETuple [EInt 5; EInt 5])]);
    SAssign (EName "x_min")
      (call0 (EName "np" ~> "min") [EBin Mul (EName "model_map") (EName "recovered_model")]);
    SAssign (EName "x_max")
      (call0 (EName "np" ~> "max") [EBin Mul (EName "model_map") (EName "recovered_model")]);
    SExpr (ECall (EName "plot_layer")
             [EBin Mul (EName "model_map") (EName "recovered_model"); EName "mesh"]
             [("ax", EName "ax"); ("depth_axis", EBool false)]);
    SExpr (method "ax" "set_ylim" [ENeg (EInt 300); EInt 0] []);
    SExpr (method "ax" "set_xlim" [EInt 10; EInt 5000] []);
    SExpr (method "ax" "grid" [EBool true]
             [("which", EStr "both"); ("ls", EStr "--"); ("c", EStr "gray")])
  ];
  (* cell 25 *)
  Code [
    SComment "# Plot the true and apparent resistivities on a sounding curve";
    SAssign (ETuple [EName "fig"; EName "ax"])
      (ECall (EName "plt" ~> "subplots") [EInt 1; EInt 1]
         [("figsize", ETuple [EInt 7; EInt 5])]);
    SExpr (ECall (EName "ax" ~> "loglog")
             [EName "half_AB_separations"; EName "inv_prob" ~> "dpred"; EStr "k"]
             [("lw", EInt 2)]);
    SExpr (ECall (EName "ax" ~> "loglog")
             [EName "half_AB_separations"; EName "dobs"; EStr "kx"]
             [("lw", EInt 2); ("ms", EInt 10); ("mew", EInt 2)]);
    SExpr (method "ax" "set_xlabel" [EStr "AB/2 (m)"] []);
    SExpr (method "ax" "set_ylabel" [EStr "Apparent Resistivity ($\Omega m$)"] []);
    SExpr (method "ax" "legend"
             [EList [EStr "Observed Sounding Curve"; EStr "Predicted Sounding Curve"]] []);
    SExpr (method "ax" "set_ylim" [EInt 50; EInt 1000] []);
    SExpr (method "ax" "grid" [EBool true]
             [("which", EStr "both"); ("ls", EStr "--"); ("c", EStr "gray")])
  ];
  (* cell 26 *)
  Code [
    SComment "# Plot true model and recovered model";
    SAssign (ETuple [EName "fig"; EName "ax"])
      (ECall (EName "plt" ~> "subplots") [EInt 1; EInt 1]
         [("figsize", ETuple [EInt 5; EInt 5])]);
    SAssign (EName "x_min")
      (call0 (EName "np" ~> "min") [EBin Mul (EName "model_map") (EName "recovered_model")]);
    SAssign (EName "x_max")
      (call0 (EName "np" ~> "max") [EBin Mul (EName "model_map") (EName "recovered_model")]);
    SExpr (ECall (EName "plot_layer")
             [EBin Mul (EName "model_map") (EName "recovered_model"); EName "mesh"]
             [("ax", EName "ax"); ("depth_axis", EBool false)]);
    SExpr (ECall (EName "plot_layer") [EName "res_tmp"; EName "plotting_mesh_tmp"]
             [("ax", EName "ax"); ("depth_axis", EBool false); ("color", EStr "r")]);
    SExpr (method "ax" "legend" [ETuple [EStr "SimPEG"; EStr "Mon State DRD"]] []);
    SExpr (method "ax" "grid" [EBool true]
             [("which", EStr "both"); ("ls", EStr "--"); ("c", EStr "gray")]);
    SExpr (method "ax" "set_ylim" [ENeg (EInt 300); EInt 0] []);
    SExpr (method "ax" "set_xlim" [EInt 10; EInt 5000] [])
  ];
  (* cell 27 *)
  Code [
    SAssign (EName "n_interation")
      (call0 (EName "len") [EName "save_iteration" ~> "outDict"]);
    SAssign (EName "phi_d") (call0 (EName "np" ~> "zeros") [EName "n_interation"]);
    SAssign (EName "phi_m") (call0 (EName "np" ~> "zeros") [EName "n_interation"]);
    SFor "ii" (call0 (EName "range") [EInt 1; EBin Add (EName "n_interation") (EInt 1)])
      [SAssign (ESubscript (EName "phi_d") (EBin Sub (EName "ii") (EInt 1)))
         (ESubscript (ESubscript (EName "save_iteration" ~> "outDict") (EName "ii"))
            (EStr "phi_d"));
       SAssign (ESubscript (EName "phi_m") (EBin Sub (EName "ii") (EInt 1)))
         (ESubscript (ESubscript (EName "save_iteration" ~> "outDict") (EName "ii"))
            (EStr "phi_m"))];
    SAssign (ETuple [EName "fig"; EName "ax"])
      (ECall (EName "plt" ~> "subplots") [EInt 1; EInt 2]
         [("figsize", ETuple [EInt 12; EInt 5])]);
    SExpr (call0 (ESubscript (EName "ax") (EInt 0) ~> "plot")
             [EBin Add (call0 (EName "np" ~> "arange") [EName "n_interation"]) (EInt 1);
              EName "phi_d"; EStr "ko-"]);
    SAssign (EName "ax_1") (call0 (ESubscript (EName "ax") (EInt 0) ~> "twinx") []);
    SExpr (call0 (EName "ax_1" ~> "plot")
             [EBin Add (call0 (EName "np" ~> "arange") [EName "n_interation"]) (EInt 1);
              EName "phi_m"; EStr "ro-"]);
    SExpr (call0 (ESubscript (EName "ax") (EInt 0) ~> "set_xlabel") [EStr "Iteration"]);
    SExpr (ECall (ESubscript (EName "ax") (EInt 0) ~> "set_ylabel") [EStr "$\phi_d$"]
             [("fontsize", EInt 20)]);
    SExpr (ECall (EName "ax_1" ~> "set_ylabel") [EStr "$\phi_m$"]
             [("fontsize", EInt 20); ("color", EStr "r")]);
    SExpr (call0 (ESubscript (EName "ax") (EInt 1) ~> "plot")
             [EName "phi_m"; EName "phi_d"; EStr "ko-"]);
    SExpr (ECall (ESubscript (EName "ax") (EInt 1) ~> "set_ylabel") [EStr "$\phi_d$"]
             [("fontsize", EInt 20)]);
    SExpr (ECall (ESubscript (EName "ax") (EInt 1) ~> "set_xlabel") [EStr "$\phi_m$"]
             [("fontsize", EInt 20)]);
    SExpr (call0 (EName "plt" ~> "tight_layout") [])
  ];
  (* cell 28: an empty code cell *)
  Code []
].

(** src/notebooks/DC-layered-cylinder.ipynb. *)
Definition DC_layered_cylinder : notebook := Notebook "src/notebooks/DC-layered-cylinder.ipynb" "DC Layered Cylinder" [
  (* cell 0 *)
  Markdown [
    "# DC Layered Cylinder";
    "";
    "Simulate a DC resistivity sounding over a cylinder in a layered earth. "
  ];
  (* cell 1 *)
  Code [
    SFromImport "utils.DCWidgetResLayer2_5D" [("ResLayer_app", None)];
    SFromImport "IPython.display" [("display", None)];
    SMagic "%matplotlib inline";
    SFromImport "matplotlib" [("rcParams", None)];
    SAssign (ESubscript (EName "rcParams") (EStr "font.size")) (EInt 16)
  ];
  (* cell 2 *)
  Markdown [
    "## Purpose ";
    "";
    "For a direct current resistivity (DCR) survey, currents are injected to the earth, and flow. ";
    "Depending upon the conductivity contrast current flow in the earth will be distorted, and these changes ";
    "can be measurable on the sufurface electrodes. ";
    "Here, we focus on a cylinder target embedded in a halfspace below a highly resistive surface layer, and investigate what are happening in the earth when static currents are injected. Different from a sphere case, which is a finite target, the resistive layer will also impact the illumination of the target (conductor or resistor).";
    "By investigating changes in currents, electric fields, potential, and charges upon different geometry, Tx and Rx location, we understand geometric effects of the resistive layer for DCR survey. "
  ];
  (* cell 3 *)
  Markdown [
    "## Setup"
  ];
  (* cell 4 *)
  Markdown [
    ("<img src=" +:+ dq +:+ "https://github.com/geoscixyz/geosci-labs/blob/master/images/em/DC_ResLayer_Setup.png?raw=true" +:+ dq +:+ "> </img>")
  ];
  (* cell 5 *)
  Markdown [
    "## Question";
    "";
    "- How does the cylinder affect the apparent resistivity without the resistive layer?";
    "- How does the resistive layer affect the apparent resistivity? Is there a difference if you add or remove the cylinder target?"
  ];
  (* cell 6 *)
  Markdown [
    "## Simulate a cylinder in a layered space"
  ];
  (* cell 7 *)
  Markdown [
    " - **survey**: Type of survey";
    " - **A**: Electrode A (+) location";
    " - **B**: Electrode B (-) location";
    " - **M**: Electrode A (+) location";
    " - **N**: Electrode B (-) location";
    " - **$h_0$**: thickness of the top layer";
    " - **$h_{1}$**: thickness of the middle layer";
    " - **xc**: x location of cylinder center";
    " - **zc**: z location of cylinder center";
    " - **$\rho_{1}$**: Resistivity of the half-space";
    " - **$\rho_{2}$**: Resistivity of the layer";
    " - **$\rho_{cyl}$**: Resistivity of the cylinder";
    " - **Field**: Field to visualize";
    " - **Type**: which part of the field";
    " - **Scale**: Linear or Log Scale visualization";
    " ";
    "###  **Do not forget to hit Run Interact to update the figure after you made modifications**"
  ];
  (* cell 8 *)
  Code [
    SAssign (EName "app") (call0 (EName "ResLayer_app") [])
  ];
  (* cell 9: an empty code cell *)
  Code []
].

(** src/notebooks/DC-plot-sounding-data.ipynb. *)
Definition DC_plot_sounding_data : notebook := Notebook "src/notebooks/DC-plot-sounding-data.ipynb" "Plotting Schlumberger Sounding Data" [
  (* cell 0 *)
  Markdown [
    "# Plotting Schlumberger Sounding Data";
    "";
    "This notebook will allow you to:";
    "- Load basic text files containing sounding data";
    "- Plot the apparent resistivities as a function of electrode spacing for one or multiple sites";
    "";
    "By examining the apparent resistivity curves as a function of electrode spacing, we can get a sense as to how the electrical resistivity of the Earth changes with depth. We can also see how the resistivity profile changes from one location to another.";
    "";
    "## Import Modules"
  ];
  (* cell 1 *)
  Code [
    SImport "numpy" (Some "np");
    SImport "pandas" (Some "pd");
    SImport "matplotlib" (Some "mpl");
    SImport "matplotlib.pyplot" (Some "plt");
    SExpr (call0 (EName "mpl" ~> "rcParams" ~> "update")
             [EDict [(EStr "font.size", EInt 14)]])
  ];
  (* cell 2 *)
  Markdown [
    "## User Defined Parameters for the Notebook";
    "";
    "In the cell below, the user defines the parameters needed to run the notebook. These parameters are as follows:";
    "- **data_filenames:** The path to the text file that contains the sounding data. To plot multiple locations at once, place the file paths in a list.";
    "- **half_AB_column:** The column in the text file that has the AB/2 values. Remember that in python, 0 is the 1st column";
    "- **half_MN_column:** The column in the text file that has the MN/2 values. Remember that in python, 0 is the 1st column";
    "- **apparent_resistivity_column:** The column in the text file that has the apparent resistivity values"
  ];
  (* cell 3 *)
  Code [
    SComment "# Define the file path to the data file. Also define the AB/2, MN/2 and apparent resistivity columns.";
    SComment "# Recall that python counts starting at 0";
    SAssign (EName "data_filenames")
      (EList [EStr "./assets/Mawlamyaing_data_locations_1.csv";
              EStr "./assets/Mawlamyaing_data_locations_2.csv";
              EStr "./assets/Mawlamyaing_data_locations_3.csv";
              EStr "./assets/Mawlamyaing_data_locations_4.csv"]);
    SComment "# Can be string or list of strings";
    SAssign (EName "half_AB_column") (EStr "AB/2 (m)");
    SAssign (EName "half_MN_column") (EStr "MN/2 (m)");
    SAssign (EName "apparent_resistivity_column") (EList [EStr "App. Res. (Ohm m)"])
  ];
  (* cell 4 *)
  Markdown [
    "## Plotting Apparent Resistivity Curves";
    "";
    "The commands entered in the cell below will loop over the list of text files, load the data, and plot the apparent resistivity curves on a log-log plot."
  ];
  (* cell 5 *)
  Code [
    SIf (call0 (EName "isinstance") [EName "data_filenames"; EName "str"])
      [SAssign (EName "data_filenames") (EList [EName "data_filenames"])]
      [];
    SAssign (ETuple [EName "fig"; EName "ax"])
      (ECall (EName "plt" ~> "subplots") [EInt 1; EInt 1]
         [("figsize", ETuple [EInt 11; EInt 7])]);
    SFor "ii" (call0 (EName "range") [EInt 0; call0 (EName "len") [EName "data_filenames"]])
      [SComment "# Load data";
       SAssign (EName "df")
         (call0 (EName "pd" ~> "read_csv") [ESubscript (EName "data_filenames") (EName "ii")]);
       SComment "# Extract source and receiver electrode locations and the observed data";
       SAssign (EName "half_AB_separations") (ESubscript (EName "df") (EName "half_AB_column"));
       SAssign (EName "half_MN_separations") (ESubscript (EName "df") (EName "half_MN_column"));
       SAssign (EName "dobs") (ESubscript (EName "df") (EName "apparent_resistivity_column"));
       SExpr (ECall (EName "ax" ~> "loglog") [EName "half_AB_separations"; EName "dobs"]
                [("lw", EInt 2)])];
    SExpr (method "ax" "set_xlabel" [EStr "AB/2 (m)"] []);
    SExpr (method "ax" "set_ylabel" [EStr "Apparent Resistivity ($\Omega m$)"] []);
    SExpr (method "ax" "legend" [EName "data_filenames"] []);
    SExpr (method "ax" "grid" [EBool true]
             [("which", EStr "both"); ("ls", EStr "--"); ("c", EStr "gray")])
  ]
].

(** The repository: every notebook under src/. *)
Definition repository : list notebook :=
  [parametric_inversion_app; smooth_inversion_app; DC_1d_smooth_inversion_code;
   DC_layered_cylinder; DC_plot_sounding_data].

(** ** Provenance of objects

    The libraries the notebooks call are not part of the repository, so the
    interpreter leaves them uninterpreted: the value of an expression is the
    expression itself with every name replaced by what it was bound to.  A
    variable bound to the result of a call therefore stands for "the object
    this call created"; mutating the object later (a method call, an
    assignment to a subscript) does not change what the variable refers to. *)
Inductive prov :=
| PNone
| PBool (b : bool)
| PInt (n : Z)
| PFloat (m e : Z)
| PStr (s : string)
| PModule (path : string)
| PBuiltin (name : string)
| PLocalDef (name : string)
| PAttr (p : prov) (a : string)
| PCall (f : prov) (args : list prov) (kwargs : list (string * prov))
| PBin (op : binop) (l r : prov)
| PNeg (p : prov)
| PList (ps : list prov)
| PTuple (ps : list prov)
| PDict (items : list (prov * prov))
| PSubscript (p : prov) (i : prov)
| PSlice (lo hi : prov)
| PItem (p : prov) (i : nat)
| PElem (p : prov)
| PPhi (c : prov) (a b : option prov).

(** [PModule m] is the module [m] bound by an import and [PAttr (PModule m) x]
    the name [x] imported from it; [PBuiltin] is a Python builtin, [PLocalDef]
    a function or class defined in the notebook itself; [PItem p i] is the
    [i]-th component of [p] after tuple unpacking, [PElem p] an element of the
    iterable [p] (a loop variable), and [PPhi c a b] the value of a variable
    after an [if] on [c]: [a] if the branch was taken, [b] otherwise ([None]
    where the variable is unbound). *)

(** The global namespace of a running notebook. *)
Abbreviation env := (gmap string prov).

(** The builtins the notebooks use. *)
Definition builtins : list string := ["len"; "range"; "print"; "isinstance"; "str"].

(** The value of an expression; [None] is a NameError. *)
Fixpoint eval (ρ : env) (e : expr) : option prov :=
  match e with
  | EName x =>
      match ρ !! x with
      | Some v => Some v
      | None => if bool_decide (x ∈ builtins) then Some (PBuiltin x) else None
      end
  | ENone => Some PNone
  | EBool b => Some (PBool b)
  | EInt n => Some (PInt n)
  | EFloat m e => Some (PFloat m e)
  | EStr s => Some (PStr s)
  | EAttr e a => p ← eval ρ e; Some (PAttr p a)
  | ECall f args kwargs =>
      pf ← eval ρ f;
      pargs ← mapM (eval ρ) args;
      pkw ← mapM (λ kv, v ← eval ρ kv.2; Some (kv.1, v)) kwargs;
      Some (PCall pf pargs pkw)
  | EBin op l r => pl ← eval ρ l; pr ← eval ρ r; Some (PBin op pl pr)
  | ENeg e => p ← eval ρ e; Some (PNeg p)
  | EList es => ps ← mapM (eval ρ) es; Some (PList ps)
  | ETuple es => ps ← mapM (eval ρ) es; Some (PTuple ps)
  | EDict items =>
      ps ← mapM (λ kv, k ← eval ρ kv.1; v ← eval ρ kv.2; Some (k, v)) items;
      Some (PDict ps)
  | ESubscript e i => p ← eval ρ e; pi ← eval ρ i; Some (PSubscript p pi)
  | ESlice lo hi => pl ← eval ρ lo; ph ← eval ρ hi; Some (PSlice pl ph)
  end.

(** Every call inside an expression, in the order Python makes them: the
    callee and the arguments are evaluated before the call itself. *)
Fixpoint calls_expr (e : expr) : list expr :=
  match e with
  | EName _ | ENone | EBool _ | EInt _ | EFloat _ _ | EStr _ => []
  | EAttr e _ | ENeg e => calls_expr e
  | ECall f args kwargs =>
      calls_expr f ++ mjoin (calls_expr <$> args)
        ++ mjoin ((λ kv, calls_expr kv.2) <$> kwargs) ++ [e]
  | EBin _ l r | ESubscript l r | ESlice l r => calls_expr l ++ calls_expr r
  | EList es | ETuple es => mjoin (calls_expr <$> es)
  | EDict items => mjoin ((λ kv, calls_expr kv.1 ++ calls_expr kv.2) <$> items)
  end.

(** Binding an assignment target.  A name is bound; a tuple of names is bound
    component by component; a subscript or attribute target updates an
    existing object and binds nothing. *)
Definition bind_name (t : expr) (v : prov) (ρ : env) : env :=
  match t with
  | EName x => <[x := v]> ρ
  | _ => ρ
  end.

Definition bind_target (t : expr) (v : prov) (ρ : env) : env :=
  match t with
  | ETuple ts => foldl (λ ρ it, bind_name it.2 (PItem v it.1) ρ) ρ (imap pair ts)
  | _ => bind_name t v ρ
  end.

(** What assigning to a target evaluates before it stores: nothing for a
    name, the object and the index for a subscript, the object for an
    attribute. *)
Definition target_exprs (t : expr) : list expr :=
  let one t := match t with
               | EName _ => []
               | ESubscript e i => [e; i]
               | EAttr e _ => [e]
               | _ => [t]
               end in
  match t with
  | ETuple ts => mjoin (one <$> ts)
  | _ => one t
  end.

(** [x.append(v)] on a variable that holds a list the notebook built: the
    list grows by [v]. *)
Definition list_append (e : expr) (ρ : env) : env :=
  match e with
  | ECall (EAttr (EName x) m) [v] [] =>
      match ρ !! x, eval ρ v with
      | Some (PList ps), Some pv =>
          if decide (m = "append") then <[x := PList (ps ++ [pv])]> ρ else ρ
      | _, _ => ρ
      end
  | _ => ρ
  end.

(** The part of a dotted module path before the first dot. *)
Fixpoint package (m : string) : string :=
  match m with
  | EmptyString => EmptyString
  | String c m => if Ascii.eqb c "."%char then EmptyString else String c (package m)
  end.

(** The names a block of statements may bind. *)
Definition target_names (t : expr) : list string :=
  match t with
  | EName x => [x]
  | ETuple ts => mjoin ((λ t, match t with EName x => [x] | _ => [] end) <$> ts)
  | _ => []
  end.

Fixpoint assigned (s : stmt) : list string :=
  match s with
  | SImport m None => [package m]
  | SImport _ (Some a) => [a]
  | SFromImport _ names => (λ na, default na.1 na.2) <$> names
  | SAssign t _ => target_names t
  | SExpr _ | SMagic _ | SComment _ => []
  | SFor x _ body => x :: mjoin (assigned <$> body)
  | SIf _ thn els => mjoin (assigned <$> thn) ++ mjoin (assigned <$> els)
  | SWhile _ body => mjoin (assigned <$> body)
  | SDef name _ _ | SClass name _ _ => [name]
  end.

(** A running notebook: the namespace and the calls made so far. *)
Definition state : Type := env * list prov.

(** One statement.  A loop body is run once, for a generic element of the
    iterable; both branches of an [if] are run and the variables they assign
    are merged with [PPhi]; a [def] or [class] binds its name and runs
    nothing.  An assignment evaluates what its target reads.  Of the ways to
    change an object in place, [append] on a list the notebook built is
    followed; a call of a library method or an assignment to a subscript or an
    attribute leaves the binding as it is, so that a variable stands for the
    object as the library built it.  A name assigned in a loop body or in a
    branch counts as bound after it.  What a statement about a variable needs
    beyond that is stated on the text of the notebook: the statements in
    which the variable occurs ([statements_with]). *)
Fixpoint run_stmt (s : stmt) (st : state) : option state :=
  let run_block := fix run_block (b : list stmt) (st : state) : option state :=
    match b with
    | [] => Some st
    | s :: b => st' ← run_stmt s st; run_block b st'
    end in
  let '(ρ, tr) := st in
  match s with
  | SImport m None => Some (<[package m := PModule (package m)]> ρ, tr)
  | SImport m (Some a) => Some (<[a := PModule m]> ρ, tr)
  | SFromImport m names =>
      Some (foldl (λ ρ na, <[default na.1 na.2 := PAttr (PModule m) na.1]> ρ) ρ names, tr)
  | SAssign t v =>
      pv ← eval ρ v;
      _ ← mapM (eval ρ) (target_exprs t);
      cs ← mapM (eval ρ) (calls_expr v ++ calls_expr t);
      Some (bind_target t pv ρ, tr ++ cs)
  | SExpr e =>
      _ ← eval ρ e;
      cs ← mapM (eval ρ) (calls_expr e);
      Some (list_append e ρ, tr ++ cs)
  | SFor x it body =>
      pit ← eval ρ it;
      cs ← mapM (eval ρ) (calls_expr it);
      run_block body (<[x := PElem pit]> ρ, tr ++ cs)
  | SIf c thn els =>
      pc ← eval ρ c;
      cs ← mapM (eval ρ) (calls_expr c);
      st1 ← run_block thn (ρ, []);
      st2 ← run_block els (ρ, []);
      Some (foldl (λ ρ' x, <[x := PPhi pc (st1.1 !! x) (st2.1 !! x)]> ρ') ρ
              (mjoin (assigned <$> thn) ++ mjoin (assigned <$> els)),
            tr ++ cs ++ st1.2 ++ st2.2)
  | SWhile c body =>
      pc ← eval ρ c;
      cs ← mapM (eval ρ) (calls_expr c);
      st1 ← run_block body (ρ, []);
      Some (foldl (λ ρ' x, <[x := PPhi pc (st1.1 !! x) (ρ !! x)]> ρ') ρ
              (mjoin (assigned <$> body)),
            tr ++ cs ++ st1.2)
  | SDef name _ _ | SClass name _ _ => Some (<[name := PLocalDef name]> ρ, tr)
  | SMagic _ | SComment _ => Some st
  end.

Fixpoint run_block (b : list stmt) (st : state) : option state :=
  match b with
  | [] => Some st
  | s :: b => st' ← run_stmt s st; run_block b st'
  end.

(** The statements of a notebook: its code cells, top to bottom. *)
Definition code_of (c : cell) : list stmt :=
  match c with
  | Markdown _ => []
  | Code src => src
  end.

Definition markdown_of (c : cell) : list string :=
  match c with
  | Markdown src => src
  | Code _ => []
  end.

Definition statements (nb : notebook) : list stmt := mjoin (code_of <$> nb_cells nb).

Definition run_notebook (nb : notebook) : option state :=
  run_block (statements nb) (∅, []).

Definition calls (nb : notebook) : list prov :=
  default [] (snd <$> run_notebook nb).

Definition namespace (nb : notebook) : env :=
  default ∅ (fst <$> run_notebook nb).

(** ** Where a call comes from *)

(** The module an object comes from: the import at the root of the
    expression that created it.  Literals and builtins belong to Python
    itself. *)
Fixpoint origin (p : prov) : option string :=
  match p with
  | PModule m => Some m
  | PBuiltin _ | PNone | PBool _ | PInt _ | PFloat _ _ | PStr _
  | PList _ | PTuple _ | PDict _ | PSlice _ _ => Some "builtins"
  | PLocalDef _ => Some "__main__"
  | PAttr p _ | PCall p _ _ | PSubscript p _ | PItem p _ | PElem p => origin p
  | PBin _ _ _ | PNeg _ | PPhi _ _ _ => None
  end.

(** The top-level package of a call, and the packages a notebook calls into,
    each listed once. *)
Definition library_of (c : prov) : option string := package <$> origin c.

Definition libraries (nb : notebook) : option (list string) :=
  remove_dups <$> mapM library_of (calls nb).

(** The name under which a call is made: the last component of its callee. *)
Definition callee_name (c : prov) : string :=
  match c with
  | PCall (PAttr _ a) _ _ => a
  | PCall (PBuiltin a) _ _ | PCall (PLocalDef a) _ _ => a
  | _ => ""
  end.

(** ** Syntactic surveys of a notebook *)

(** Every statement of a block, nested ones included. *)
Fixpoint flatten_stmt (s : stmt) : list stmt :=
  s :: match s with
       | SFor _ _ b | SWhile _ b | SDef _ _ b | SClass _ _ b => mjoin (flatten_stmt <$> b)
       | SIf _ t e => mjoin (flatten_stmt <$> t) ++ mjoin (flatten_stmt <$> e)
       | _ => []
       end.

Definition all_statements (nb : notebook) : list stmt :=
  mjoin (flatten_stmt <$> statements nb).

(** The imports of a notebook: (module, name bound). *)
Definition imports_stmt (s : stmt) : list (string * string) :=
  match s with
  | SImport m None => [(m, package m)]
  | SImport m (Some a) => [(m, a)]
  | SFromImport m names => (λ na, (m, default na.1 na.2)) <$> names
  | _ => []
  end.

Definition imports (nb : notebook) : list (string * string) :=
  mjoin (imports_stmt <$> all_statements nb).

Definition imports_from (pkg : string) (nb : notebook) : list (string * string) :=
  filter (λ mn, package mn.1 = pkg) (imports nb).




(** The comment lines of a notebook. *)
Definition comments (nb : notebook) : list string :=
  mjoin ((λ s, match s with SComment t => [t] | _ => [] end) <$> all_statements nb).

(** The statements that do something: not an import, a magic or a comment. *)
Definition is_effective (s : stmt) : bool :=
  match s with
  | SImport _ _ | SFromImport _ _ | SMagic _ | SComment _ => false
  | _ => true
  end.

Definition effective_statements (nb : notebook) : list stmt :=
  filter (λ s, is_effective s = true) (all_statements nb).

(** The identifiers of an expression: variable names, attribute names and
    keyword-argument names. *)
Fixpoint identifiers (e : expr) : list string :=
  match e with
  | EName x => [x]
  | ENone | EBool _ | EInt _ | EFloat _ _ | EStr _ => []
  | EAttr e a => identifiers e ++ [a]
  | ENeg e => identifiers e
  | ECall f args kwargs =>
      identifiers f ++ mjoin (identifiers <$> args)
        ++ mjoin ((λ kv, kv.1 :: identifiers kv.2) <$> kwargs)
  | EBin _ l r | ESubscript l r | ESlice l r => identifiers l ++ identifiers r
  | EList es | ETuple es => mjoin (identifiers <$> es)
  | EDict items => mjoin ((λ kv, identifiers kv.1 ++ identifiers kv.2) <$> items)
  end.

(** The variables an expression reads. *)
Fixpoint reads (e : expr) : list string :=
  match e with
  | EName x => [x]
  | ENone | EBool _ | EInt _ | EFloat _ _ | EStr _ => []
  | EAttr e _ | ENeg e => reads e
  | ECall f args kwargs =>
      reads f ++ mjoin (reads <$> args) ++ mjoin ((λ kv, reads kv.2) <$> kwargs)
  | EBin _ l r | ESubscript l r | ESlice l r => reads l ++ reads r
  | EList es | ETuple es => mjoin (reads <$> es)
  | EDict items => mjoin ((λ kv, reads kv.1 ++ reads kv.2) <$> items)
  end.

(** What an assignment target reads: nothing for a name or a tuple of names,
    the object and the index for a subscript, the object for an attribute. *)
Definition reads_target (t : expr) : list string :=
  match t with
  | EName _ => []
  | ETuple ts => mjoin ((λ t, match t with EName _ => [] | _ => reads t end) <$> ts)
  | _ => reads t
  end.

Definition identifiers_stmt (s : stmt) : list string :=
  match s with
  | SImport _ _ | SFromImport _ _ => snd <$> imports_stmt s
  | SAssign t v => identifiers t ++ identifiers v
  | SExpr e => identifiers e
  | SFor x it _ => x :: identifiers it
  | SIf c _ _ | SWhile c _ => identifiers c
  | SDef n ps _ => n :: ps
  | SClass n bs _ => n :: mjoin (identifiers <$> bs)
  | SMagic _ | SComment _ => []
  end.

Definition reads_stmt (s : stmt) : list string :=
  match s with
  | SAssign t v => reads v ++ reads_target t
  | SExpr e => reads e
  | SFor _ it _ => reads it
  | SIf c _ _ | SWhile c _ => reads c
  | SClass _ bs _ => mjoin (reads <$> bs)
  | _ => []
  end.

Definition all_identifiers (nb : notebook) : list string :=
  mjoin (identifiers_stmt <$> all_statements nb).

Definition all_reads (nb : notebook) : list string :=
  mjoin (reads_stmt <$> all_statements nb).

(** Every attribute name inside a provenance term. *)
Fixpoint attributes (p : prov) : list string :=
  match p with
  | PNone | PBool _ | PInt _ | PFloat _ _ | PStr _ | PModule _ | PBuiltin _
  | PLocalDef _ => []
  | PAttr p a => attributes p ++ [a]
  | PCall f args kwargs =>
      attributes f ++ mjoin (attributes <$> args)
        ++ mjoin ((λ kv, attributes kv.2) <$> kwargs)
  | PBin _ l r | PSubscript l r | PSlice l r => attributes l ++ attributes r
  | PNeg p | PItem p _ | PElem p => attributes p
  | PList ps | PTuple ps => mjoin (attributes <$> ps)
  | PDict items => mjoin ((λ kv, attributes kv.1 ++ attributes kv.2) <$> items)
  | PPhi c a b =>
      attributes c ++ from_option attributes [] a ++ from_option attributes [] b
  end.

(** ** Text search *)

(** [contains needle hay]: [needle] occurs in [hay]. *)
Fixpoint contains (needle hay : string) : bool :=
  String.prefix needle hay ||
  match hay with
  | EmptyString => false
  | String _ hay => contains needle hay
  end.

Definition markdown (nb : notebook) : list string := mjoin (markdown_of <$> nb_cells nb).

Definition mentions (needle : string) (nb : notebook) : bool :=
  existsb (contains needle) (markdown nb).

(** The claim that every notebook wires utils apps together: the notebook
    imports something from the utils package and all of its calls are made on
    what it imported from there. *)
Definition wires_utils_apps (nb : notebook) : bool :=
  bool_decide (imports_from "utils" nb ≠ []) &&
  bool_decide (libraries nb = Some ["utils"]).

(** A notebook instantiates the app [app]: it calls the name [app] imported
    from the utils package. *)
Definition instantiates (app : string) (nb : notebook) : bool :=
  existsb (λ c, bool_decide (callee_name c = app ∧ library_of c = Some "utils")) (calls nb).


(** ** The arithmetic of the smooth-inversion script

    The columns of the data file hold finite floating-point numbers; they are
    modelled as exact rationals ([Qc]), on which comparison and equality are
    what they are on finite floats.  [None] stands for a Python exception
    (KeyError or IndexError). *)

#[global] Instance Qc_inhabited : Inhabited Qc := populate (Q2Qc 0).

(** The table [pd.read_csv] returns: its rows, each a value per column name.
    All columns of a table have as many entries as the table has rows.  The
    cells are numbers: what a blank cell, which pandas reads as NaN, does to
    the uncertainties is followed on [datum] below.  A table without rows has
    no header of its own here, so that each of its columns is the empty
    column. *)
Abbreviation DataFrame := (list (gmap string Qc)).

(** [df[column]] (and its [.values]): the entries of one column, KeyError if
    the table has no such column. *)
Definition getitem (df : DataFrame) (column : string) : option (list Qc) :=
  mapM (λ row, row !! column) df.

(** [s[a:b]] for non-negative bounds: both bounds are clamped to the length. *)
Definition py_slice {A} (s : list A) (a b : nat) : list A :=
  let a := a `min` length s in
  let b := b `min` length s in
  take (b - a) (drop a s).

(** The index of the first occurrence of [x]. *)
Definition first_index (x : Qc) (ar : list Qc) : nat :=
  default 0 (fst <$> list_find (x =.) ar).

(** [np.unique(ar, return_index=True)], as numpy documents it: the sorted
    unique elements, and the indices of their first occurrences in [ar]. *)
Definition np_unique (ar : list Qc) : list Qc * list nat :=
  let u := merge_sort Qcle (remove_dups ar) in
  (u, (λ x, first_index x ar) <$> u).

Definition np_sort (k : list nat) : list nat := merge_sort Nat.le k.

(** SimPEG's dipole receiver and source as the script builds them: the
    electrode locations are rows (x, 0, 0). *)
Definition location : Type := Qc * Qc * Qc.

Record receivers_Dipole := {
  M_locations : list location;
  N_locations : list location
}.

Record sources_Dipole := {
  receiver_list : list receivers_Dipole;
  A_location : location;
  B_location : location
}.

(** [np.c_[x, np.zeros((np.shape(x)[0], 2))]]. *)
Definition with_zeros (x : list Qc) : list location :=
  (λ v, (v, Q2Qc 0, Q2Qc 0)) <$> x.

(** The source index of the survey: the number of sources and the block
    bounds [k], computed from the AB/2 column and the number of data. *)
Definition source_index (half_AB_separations dobs : list Qc) : nat * list nat :=
  let '(unique_tx, k) := np_unique half_AB_separations in
  let n_sources := length k in
  let k := np_sort k in
  let k := k ++ [length dobs + 1] in
  (n_sources, k).

(** The body of the loop for source [ii].  [k[ii]] and [k[ii+1]] index a numpy
    array (IndexError out of range), [half_AB_separations[k[ii]]] a pandas
    series (KeyError out of range); the slice of [half_MN_separations] never
    raises. *)
Definition loop_body (half_AB_separations half_MN_separations : list Qc)
    (k : list nat) (ii : nat) : option sources_Dipole :=
  lo ← k !! ii;
  hi ← k !! (ii + 1);
  let M := with_zeros (Qcopp <$> py_slice half_MN_separations lo hi) in
  let N := with_zeros (py_slice half_MN_separations lo hi) in
  ab ← half_AB_separations !! lo;
  Some {| receiver_list := [ {| M_locations := M; N_locations := N |} ];
          A_location := (Qcopp ab, Q2Qc 0, Q2Qc 0);
          B_location := (ab, Q2Qc 0, Q2Qc 0) |}.

(** The survey construction of the cell "Load Data, Define Survey and Plot". *)
Definition define_survey (half_AB_separations half_MN_separations dobs : list Qc)
    : option (list sources_Dipole) :=
  let '(n_sources, k) := source_index half_AB_separations dobs in
  mapM (loop_body half_AB_separations half_MN_separations k) (seq 0 n_sources).

(** The cell from the CSV table on. *)
Definition load_and_define_survey (df : DataFrame)
    (half_AB_column half_MN_column apparent_resistivity_column : string)
    : option (list sources_Dipole) :=
  half_AB_separations ← getitem df half_AB_column;
  half_MN_separations ← getitem df half_MN_column;
  dobs ← getitem df apparent_resistivity_column;
  define_survey half_AB_separations half_MN_separations dobs.

(** The rows of the table a source receives: the MN/2 values of its
    receivers, in order. *)
Definition block (s : sources_Dipole) : list Qc :=
  mjoin ((λ r, (λ loc, loc.1.1) <$> N_locations r) <$> receiver_list s).

(** Row [j] lies in the slice [k[ii]:k[ii+1]]. *)
Definition in_block (k : list nat) (ii j : nat) : Prop :=
  ∃ lo hi, k !! ii = Some lo ∧ k !! (ii + 1) = Some hi ∧ lo ≤ j < hi.

(** Rows with equal AB/2 values are contiguous: once the value changes, the
    old value does not come back. *)
Fixpoint drop_equal (x : Qc) (l : list Qc) : list Qc :=
  match l with
  | [] => []
  | y :: l' => if decide (x = y) then drop_equal x l' else l
  end.

Fixpoint contiguous (l : list Qc) : bool :=
  match l with
  | [] => true
  | x :: l => bool_decide (x ∉ drop_equal x l) && contiguous l
  end.

(** The cell "Assign Uncertainties", on data that are numbers;
    [uncertainties_of] below is its formula on data that may have blanks. *)
Definition assign_uncertainties (df : DataFrame) (uncertainty_column : option string)
    (uncertainty_floor uncertainty_percent : Qc) (dobs : list Qc) : option (list Qc) :=
  match uncertainty_column with
  | Some column => getitem df column
  | None =>
      Some ((λ d, uncertainty_floor + Q2Qc 0.01 * uncertainty_percent * Qcabs d)%Qc <$> dobs)
  end.

(** A small sounding table used in the examples: five readings at three
    AB/2 spacings. *)
Definition reading (ab mn rho : Q) : gmap string Qc :=
  {[ "AB/2 (m)" := Q2Qc ab; "MN/2 (m)" := Q2Qc mn; "App. Res. (Ohm m)" := Q2Qc rho ]}.

Definition sounding : DataFrame :=
  [reading 1.5 0.5 348; reading 1.5 1 350; reading 3 0.5 722.9; reading 5 0.5 282;
   reading 5 1 280.5].

(** Its three columns. *)
Definition sounding_AB : list Qc := Q2Qc <$> [1.5; 1.5; 3; 5; 5]%Q.
Definition sounding_MN : list Qc := Q2Qc <$> [0.5; 1; 0.5; 0.5; 1]%Q.
Definition sounding_rho : list Qc := Q2Qc <$> [348; 350; 722.9; 282; 280.5]%Q.

(** A table in which the spacing 1.5 comes back after the spacing 3. *)
Definition scattered : DataFrame :=
  [reading 1.5 0.5 348; reading 3 0.5 722.9; reading 1.5 1 350].

Definition scattered_AB : list Qc := Q2Qc <$> [1.5; 3; 1.5]%Q.
Definition scattered_MN : list Qc := Q2Qc <$> [0.5; 0.5; 1]%Q.
Definition scattered_rho : list Qc := Q2Qc <$> [348; 722.9; 350]%Q.

(** ** Names used in the statements *)

(** [SimPEG.sub.name], as bound by [from SimPEG import sub]; the module [dc],
    as bound by [from SimPEG.electromagnetics.static import resistivity as dc];
    and [np.name]. *)
Definition SimPEG_ (sub name : string) : prov := PAttr (PAttr (PModule "SimPEG") sub) name.

Definition dc_ : prov := PAttr (PModule "SimPEG.electromagnetics.static") "resistivity".

Definition np_ (name : string) : prov := PAttr (PModule "numpy") name.

(** The app object of the two app notebooks: [DC1D3LayerApp()] and
    [DC1DInversionApp()] of utils.DCResistivity. *)
Definition utils_app (name : string) : prov :=
  PCall (PAttr (PModule "utils.DCResistivity") name) [] [].


(** The identifiers of the whole repository that contain [needle]. *)
Definition identifiers_with (needle : string) : list string :=
  filter (λ x, contains needle x = true) (mjoin (all_identifiers <$> repository)).

(** The namespace the smooth-inversion script ends with. *)
Definition script_namespace : env := namespace DC_1d_smooth_inversion_code.

(** ** Tactics *)

(** Closed statements about the notebooks are decided by running the
    definitions. *)
Ltac by_computation :=
  first [ vm_compute; reflexivity
        | apply (bool_decide_unpack _); vm_compute; exact I ].


(** [bound x]: provide the value the smooth-inversion script binds [x] to. *)
Ltac bound x :=
  let v := eval vm_compute in (script_namespace !! x) in
  lazymatch v with
  | Some ?p => exists p
  end.

(** [survey_of df]: provide the sources the survey construction builds from
    the concrete table [df]. *)
Ltac survey_of df :=
  let v := eval vm_compute in
    (load_and_define_survey df "AB/2 (m)" "MN/2 (m)" "App. Res. (Ohm m)") in
  lazymatch v with
  | Some ?l => exists l
  end.

(** ** The rest of the smooth-inversion script *)

(** [survey.nD]: the number of data a survey expects, one per receiver
    dipole of every source. *)
Definition survey_nD (source_list : list sources_Dipole) : nat :=
  sum_list ((λ s, sum_list ((λ r, length (N_locations r)) <$> receiver_list s))
              <$> source_list).

(** The AB/2 value a source was built for: the x coordinate of its B
    electrode. *)
Definition source_AB (s : sources_Dipole) : Qc := (B_location s).1.1.

(** The cell widths of the mesh,
    [np.r_[layer_thicknesses, layer_thicknesses[-1]]]: the thicknesses and the
    deepest one once more.  [layer_thicknesses[-1]] is an IndexError on an
    empty array. *)
Definition mesh_cells (layer_thicknesses : list Qc) : option (list Qc) :=
  bottom ← last layer_thicknesses;
  Some (layer_thicknesses ++ [bottom]).

(** [np.log(halfspace_resistivity)*np.ones((mesh.nC))], with numpy's [log]
    taken as a parameter. *)
Definition starting_model (log : Qc → Qc) (halfspace_resistivity : Qc)
    (layer_thicknesses : list Qc) : option (list Qc) :=
  h ← mesh_cells layer_thicknesses;
  Some ((λ one, log halfspace_resistivity * one)%Qc <$> replicate (length h) (Q2Qc 1)).

(** ** The misfit curves of the last cell *)

(** [save_iteration.outDict]: a dict from the iteration number to the record
    of that iteration.  Of a record the script reads the two scalars
    ["phi_d"] and ["phi_m"]. *)
Abbreviation outDict_t := (gmap nat (gmap string Qc)).

(** [a[i] = v] on a numpy array: IndexError out of range. *)
Definition setitem (a : list Qc) (i : nat) (v : Qc) : option (list Qc) :=
  if decide (i < length a) then Some (<[i := v]> a) else None.

(** A [for] loop over a list of indices whose body may raise. *)
Fixpoint for_each {S} (body : S → nat → option S) (indices : list nat) (s : S) : option S :=
  match indices with
  | [] => Some s
  | ii :: indices => s' ← body s ii; for_each body indices s'
  end.

(** The body of the loop: [phi_d[ii-1] = outDict[ii]['phi_d']] and the same
    for [phi_m].  A missing iteration or entry is a KeyError. *)
Definition misfit_body (outDict : outDict_t) (arrays : list Qc * list Qc) (ii : nat)
    : option (list Qc * list Qc) :=
  record ← outDict !! ii;
  d ← record !! "phi_d";
  phi_d ← setitem arrays.1 (ii - 1) d;
  record ← outDict !! ii;
  m ← record !! "phi_m";
  phi_m ← setitem arrays.2 (ii - 1) m;
  Some (phi_d, phi_m).

(** The cell: two arrays of zeros, filled for [ii] in [range(1, n+1)]. *)
Definition misfit_curves (outDict : outDict_t) : option (list Qc * list Qc) :=
  let n_interation := size outDict in
  let phi_d := replicate n_interation (Q2Qc 0) in
  let phi_m := replicate n_interation (Q2Qc 0) in
  for_each (misfit_body outDict) (seq 1 n_interation) (phi_d, phi_m).

(** The records of two iterations keyed 1 and 2, and the same records keyed
    0 and 1. *)
Definition iteration (phi_d phi_m : Q) : gmap string Qc :=
  {[ "phi_d" := Q2Qc phi_d; "phi_m" := Q2Qc phi_m ]}.

Definition two_iterations : outDict_t :=
  {[ 1 := iteration 250.5 0.2; 2 := iteration 31 1.75 ]}.

Definition two_iterations_from_zero : outDict_t :=
  {[ 0 := iteration 250.5 0.2; 1 := iteration 31 1.75 ]}.

(** ** Parameters and plots of the smooth-inversion script *)

(** The names the code cell number [i] of a notebook binds. *)
Definition cell_code (nb : notebook) (i : nat) : list stmt :=
  from_option code_of [] (nb_cells nb !! i).

Definition cell_bindings (nb : notebook) (i : nat) : list string :=
  mjoin (assigned <$> cell_code nb i).

(** Of a list of names, those no statement of the notebook reads. *)
Definition never_read (nb : notebook) (names : list string) : list string :=
  filter (λ x, x ∉ all_reads nb) names.

(** The method calls a block makes on the variable [obj] as statements of
    their own: the method and its positional arguments. *)
Definition method_calls (obj : string) (b : list stmt) : list (string * list expr) :=
  omap (λ s, match s with
             | SExpr (ECall (EAttr (EName o) m) args _) =>
                 if decide (o = obj) then Some (m, args) else None
             | _ => None
             end) b.

(** The curves [ax.loglog(x, y, ...)] draws, each by its [y] argument, in
    drawing order. *)
Definition curves_drawn (b : list stmt) : list expr :=
  omap (λ c, if decide (c.1 = "loglog") then c.2 !! 1 else None) (method_calls "ax" b).

(** The labels [ax.legend([...])] gives, in order. *)
Definition string_items (e : expr) : list string :=
  match e with
  | EList es | ETuple es => omap (λ e, match e with EStr s => Some s | _ => None end) es
  | _ => []
  end.

Definition legend_labels (b : list stmt) : list string :=
  mjoin (omap (λ c, if decide (c.1 = "legend") then string_items <$> c.2 !! 0 else None)
              (method_calls "ax" b)).

(** matplotlib gives the labels of [legend(labels)] to the curves in the
    order they were drawn. *)
Definition legend (b : list stmt) : list (expr * string) :=
  zip (curves_drawn b) (legend_labels b).

(** ** The plotting notebook *)

(** [data_filenames] "can be string or list of strings". *)
Inductive filenames :=
| a_string (name : string)
| a_list (names : list string).

(** [if isinstance(data_filenames, str): data_filenames = [data_filenames]]. *)
Definition as_list (data_filenames : filenames) : list string :=
  match data_filenames with
  | a_string name => [name]
  | a_list names => names
  end.

(** A curve of a log-log plot. *)
Record curve := Curve {
  curve_x : list Qc;
  curve_y : list Qc
}.

(** The body of the loop for one file, after [pd.read_csv]: the AB/2 and MN/2
    columns are extracted, then the columns listed in
    [apparent_resistivity_column] (a list, so [df[...]] is a table);
    [ax.loglog(x, table)] draws one curve per column of the table. *)
Definition file_curves (df : DataFrame) (half_AB_column half_MN_column : string)
    (apparent_resistivity_column : list string) : option (list curve) :=
  half_AB_separations ← getitem df half_AB_column;
  half_MN_separations ← getitem df half_MN_column;
  dobs ← mapM (getitem df) apparent_resistivity_column;
  Some (Curve half_AB_separations <$> dobs).

(** The cell "Plotting Apparent Resistivity Curves": the curves drawn, in
    drawing order, and the labels of [ax.legend(data_filenames)].  [files]
    are the CSV files that exist; reading another one raises. *)
Definition plot_sounding_data (files : gmap string DataFrame) (data_filenames : filenames)
    (half_AB_column half_MN_column : string) (apparent_resistivity_column : list string)
    : option (list curve * list string) :=
  let data_filenames := as_list data_filenames in
  curves ← mapM (λ ii,
                   name ← data_filenames !! ii;
                   df ← files !! name;
                   file_curves df half_AB_column half_MN_column apparent_resistivity_column)
                (seq 0 (length data_filenames));
  Some (mjoin curves, data_filenames).

(** Two sounding files, and a table without MN/2 column. *)
Definition reading_without_MN (ab rho : Q) : gmap string Qc :=
  {[ "AB/2 (m)" := Q2Qc ab; "App. Res. (Ohm m)" := Q2Qc rho ]}.

Definition sounding_files : gmap string DataFrame :=
  {[ "site_1.csv" := sounding; "site_2.csv" := scattered;
     "no_MN.csv" := [reading_without_MN 1.5 348; reading_without_MN 3 722.9] ]}.

(** ** What the notebooks compute themselves *)










(** The statements of a notebook in which the identifier [x] occurs, and
    those in which an identifier containing one of the [needles] occurs.  A
    loop or a branch counts by its header; its body is made of statements of
    their own. *)
Definition statements_with (x : string) (nb : notebook) : list stmt :=
  filter (λ s, x ∈ identifiers_stmt s) (all_statements nb).

Definition statements_about (needles : list string) (nb : notebook) : list stmt :=
  filter (λ s, existsb (λ x, existsb (λ n, contains n x) needles) (identifiers_stmt s) = true)
         (all_statements nb).


(** ** Blank cells

    Where a cell of the CSV file is blank, pandas reads NaN, and NaN stays
    NaN through [np.abs], [*] and [+]. *)
Inductive datum :=
| Number (d : Qc)
| NaN.

Definition np_abs (d : datum) : datum :=
  match d with
  | Number d => Number (Qcabs d)
  | NaN => NaN
  end.

Definition times (c : Qc) (d : datum) : datum :=
  match d with
  | Number d => Number (c * d)%Qc
  | NaN => NaN
  end.

Definition plus (c : Qc) (d : datum) : datum :=
  match d with
  | Number d => Number (c + d)%Qc
  | NaN => NaN
  end.

(** [uncertainty_floor + 0.01*uncertainty_percent*np.abs(dobs)] on data that
    may have blanks. *)
Definition uncertainties_of (uncertainty_floor uncertainty_percent : Qc)
    (dobs : list datum) : list datum :=
  (λ d, plus uncertainty_floor (times (Q2Qc 0.01 * uncertainty_percent)%Qc (np_abs d)))
    <$> dobs.

(** [u > 0] on a value that may be NaN: every comparison with NaN is false. *)
Definition positive (u : datum) : Prop :=
  match u with
  | Number u => (Q2Qc 0 < u)%Qc
  | NaN => False
  end.

(** * Properties *)

(** ** Slices *)

Section slices.
Context {A : Type}.
Implicit Types s : list A.

(** Clamping: a bound past the end behaves like the length. *)
Lemma py_slice_clamp s a b : length s ≤ b → py_slice s a b = py_slice s a (length s).
Proof.
  intros Hb. unfold py_slice.
  by replace (b `min` length s) with (length s `min` length s) by lia.
Qed.

Lemma py_slice_all s b : length s ≤ b → py_slice s 0 b = s.
Proof.
  intros Hb. unfold py_slice.
  replace (b `min` length s) with (length s) by lia.
  rewrite Nat.min_0_l, Nat.sub_0_r. simpl. apply firstn_all.
Qed.

Lemma py_slice_app s a b c :
  a ≤ b → b ≤ c → py_slice s a b ++ py_slice s b c = py_slice s a c.
Proof.
  intros Hab Hbc. unfold py_slice.
  set (a' := a `min` length s). set (b' := b `min` length s). set (c' := c `min` length s).
  assert (a' ≤ b') by (subst a' b'; lia). assert (b' ≤ c') by (subst b' c'; lia).
  replace (drop b' s) with (drop (b' - a') (drop a' s))
    by (rewrite drop_drop; f_equal; lia).
  rewrite take_take_drop. f_equal. lia.
Qed.

End slices.

(** ** Sorted bounds *)

Lemma sorted_lookup_le (k : list nat) i j x y :
  StronglySorted Nat.le k → i ≤ j → k !! i = Some x → k !! j = Some y → x ≤ y.
Proof.
  intros Hk. revert i j. induction Hk as [|z k Hk IH Hz]; intros i j Hij Hi Hj; [done|].
  destruct i as [|i], j as [|j]; simplify_eq/=; [lia| |lia|].
  - rewrite Forall_forall in Hz. apply Hz. by eapply list_elem_of_lookup_2.
  - apply (IH i j); [lia|done..].
Qed.

(** Consecutive slices between sorted bounds add up to one slice. *)
Lemma slices_between_bounds {A} (s : list A) (k : list nat) m :
  StronglySorted Nat.le k → m < length k →
  mjoin ((λ ii, py_slice s (k !!! ii) (k !!! (ii + 1))) <$> seq 0 m)
  = py_slice s (k !!! 0) (k !!! m).
Proof.
  intros Hk. induction m as [|m IH]; intros Hm.
  - simpl. unfold py_slice. by rewrite Nat.sub_diag.
  - rewrite seq_S, fmap_app, join_app, IH by lia. simpl. rewrite app_nil_r.
    replace (m + 1) with (S m) by lia.
    apply py_slice_app.
    + eapply (sorted_lookup_le k 0 m); [done|lia|apply list_lookup_lookup_total_lt; lia..].
    + eapply (sorted_lookup_le k m (S m)); [done|lia|apply list_lookup_lookup_total_lt; lia..].
Qed.

(** A row between the first and the last bound lies in exactly one block. *)
Lemma block_exists (k : list nat) m j :
  m < length k → k !!! 0 ≤ j → j < k !!! m →
  ∃ ii, ii < m ∧ k !!! ii ≤ j ∧ j < k !!! (ii + 1).
Proof.
  induction m as [|m IH]; intros Hm H0 Hj; [lia|].
  destruct (decide (j < k !!! m)) as [Hlt|Hge].
  - destruct IH as (ii & ? & ? & ?); [lia|done..|]. exists ii. split; [lia|done].
  - exists m. replace (m + 1) with (S m) by lia. split; [lia|]. split; [lia|done].
Qed.

Lemma block_unique (k : list nat) ii ii' j :
  StronglySorted Nat.le k → ii + 1 < length k → ii' + 1 < length k →
  k !!! ii ≤ j → j < k !!! (ii + 1) → k !!! ii' ≤ j → j < k !!! (ii' + 1) → ii = ii'.
Proof.
  intros Hk Hl Hl' H1 H2 H3 H4.
  destruct (decide (ii = ii')) as [|Hne]; [done|exfalso].
  destruct (decide (ii < ii')).
  - assert (k !!! (ii + 1) ≤ k !!! ii'); [|lia].
    eapply (sorted_lookup_le k (ii + 1) ii'); [done|lia|apply list_lookup_lookup_total_lt; lia..].
  - assert (k !!! (ii' + 1) ≤ k !!! ii); [|lia].
    eapply (sorted_lookup_le k (ii' + 1) ii); [done|lia|apply list_lookup_lookup_total_lt; lia..].
Qed.

(** ** [np.unique] and the block bounds *)

Lemma first_index_spec x ar :
  x ∈ ar →
  ar !! first_index x ar = Some x ∧ ∀ j, j < first_index x ar → ar !! j ≠ Some x.
Proof.
  intros Hx. unfold first_index.
  destruct (list_find_elem_of (x =.) ar x Hx eq_refl) as [[i y] Hfind].
  rewrite Hfind. simpl.
  apply list_find_Some in Hfind as (Hi & <- & Hmin).
  split; [done|]. intros j Hj Hjx. by eapply Hmin.
Qed.

Lemma first_index_le ar j x : ar !! j = Some x → first_index x ar ≤ j.
Proof.
  intros Hj. destruct (first_index_spec x ar) as [_ Hmin].
  - by eapply list_elem_of_lookup_2.
  - destruct (decide (first_index x ar ≤ j)); [done|]. destruct (Hmin j); [lia|done].
Qed.

Lemma np_unique_index ar i :
  i ∈ (np_unique ar).2 ↔ ∃ x, x ∈ ar ∧ i = first_index x ar.
Proof.
  unfold np_unique. simpl. rewrite list_elem_of_fmap.
  split; intros (x & H1 & H2).
  - exists x. split; [|done]. by rewrite merge_sort_Permutation, elem_of_remove_dups in H2.
  - exists x. split; [done|]. by rewrite merge_sort_Permutation, elem_of_remove_dups.
Qed.

Lemma np_sort_elem_of k i : i ∈ np_sort k ↔ i ∈ k.
Proof. unfold np_sort. by rewrite merge_sort_Permutation. Qed.

Lemma np_sort_length k : length (np_sort k) = length k.
Proof. unfold np_sort. by rewrite merge_sort_Permutation. Qed.

Lemma np_sort_sorted k : StronglySorted Nat.le (np_sort k).
Proof. apply StronglySorted_merge_sort; [apply _|]. intros x y. unfold Nat.le. lia. Qed.

Section bounds.
Variables ab dobs : list Qc.
Hypothesis Hlen : length ab = length dobs.

Abbreviation n_sources := (source_index ab dobs).1.
Abbreviation k := (source_index ab dobs).2.

Lemma source_index_unfold :
  source_index ab dobs
  = (length (np_unique ab).2, np_sort (np_unique ab).2 ++ [length dobs + 1]).
Proof. done. Qed.

Lemma bounds_length : length k = n_sources + 1.
Proof.
  rewrite source_index_unfold. simpl.
  by rewrite length_app, np_sort_length.
Qed.

Lemma bounds_first_index ii lo :
  ii < n_sources → k !! ii = Some lo → ∃ x, ab !! lo = Some x ∧ lo = first_index x ab.
Proof.
  rewrite source_index_unfold. simpl. intros Hii Hlo.
  rewrite lookup_app_l in Hlo by (by rewrite np_sort_length).
  apply list_elem_of_lookup_2, np_sort_elem_of, np_unique_index in Hlo as (x & Hx & ->).
  exists x. split; [|done]. by apply first_index_spec.
Qed.

Lemma bounds_last : k !! n_sources = Some (length dobs + 1).
Proof.
  rewrite source_index_unfold. simpl.
  rewrite lookup_app_r by (by rewrite np_sort_length).
  by rewrite np_sort_length, Nat.sub_diag.
Qed.

Lemma bounds_sorted : StronglySorted Nat.le k.
Proof.
  rewrite source_index_unfold. simpl.
  apply StronglySorted_app_2; [|apply np_sort_sorted|repeat constructor].
  intros i j Hi ->%list_elem_of_singleton.
  apply np_sort_elem_of, np_unique_index in Hi as (x & Hx & ->).
  destruct (first_index_spec x ab Hx) as [Hi%lookup_lt_Some _].
  unfold Nat.le. lia.
Qed.

(** Every first occurrence is a bound. *)
Lemma bounds_first_occurrence j x :
  ab !! j = Some x → ∃ m, m < n_sources ∧ k !! m = Some (first_index x ab).
Proof.
  intros Hj. rewrite source_index_unfold. simpl.
  assert (first_index x ab ∈ np_sort (np_unique ab).2) as Hin.
  { apply np_sort_elem_of, np_unique_index. exists x. split; [|done].
    by eapply list_elem_of_lookup_2. }
  apply list_elem_of_lookup_1 in Hin as [m Hm]. exists m.
  pose proof (lookup_lt_Some _ _ _ Hm) as Hlt. rewrite np_sort_length in Hlt.
  split; [done|]. by rewrite lookup_app_l by (by rewrite np_sort_length).
Qed.

(** The first bound is row 0 as soon as there is a row. *)
Lemma bounds_first : ab ≠ [] → k !! 0 = Some 0.
Proof.
  intros Hne. destruct (ab !! 0) as [x|] eqn:Hx.
  - destruct (bounds_first_occurrence 0 x Hx) as (m & Hm & Hkm).
    pose proof (first_index_le _ _ _ Hx) as H0.
    destruct (k !! 0) as [z|] eqn:Hz.
    + f_equal. assert (z ≤ first_index x ab); [|lia].
      eapply (sorted_lookup_le k 0 m); [apply bounds_sorted|lia|done..].
    + apply lookup_ge_None in Hz. rewrite bounds_length in Hz. lia.
  - apply lookup_ge_None in Hx. destruct Hne. apply nil_length_inv. lia.
Qed.

End bounds.

(** ** Contiguous rows *)

Lemma drop_equal_run x (t : list Qc) j m :
  x ∉ drop_equal x t → j ≤ m → t !! m = Some x → t !! j = Some x.
Proof.
  revert j m. induction t as [|z t IH]; intros j m Hx Hjm Hm; [done|].
  simpl in Hx. destruct (decide (x = z)) as [<-|Hne].
  - destruct j as [|j]; [done|]. destruct m as [|m]; [lia|]. simpl in *.
    apply (IH j m); [done|lia|done].
  - destruct Hx. by eapply list_elem_of_lookup_2.
Qed.

Lemma contiguous_between (l : list Qc) i j m x :
  contiguous l = true → i ≤ j → j ≤ m → l !! i = Some x → l !! m = Some x →
  l !! j = Some x.
Proof.
  revert i j m. induction l as [|y l IH]; intros i j m Hc Hij Hjm Hi Hm; [done|].
  simpl in Hc. apply andb_prop in Hc as [Hy%bool_decide_eq_true Hc].
  destruct i as [|i].
  - simplify_eq/=. destruct j as [|j]; [done|]. destruct m as [|m]; [lia|]. simpl in *.
    apply (drop_equal_run x l j m); [done|lia|done].
  - destruct j as [|j]; [lia|]. destruct m as [|m]; [lia|]. simpl in *.
    apply (IH i j m); [done|lia|lia|done..].
Qed.

(** ** The survey construction *)

Lemma mapM_Some_fmap {A B} (f : A → option B) (g : A → B) (l : list A) :
  (∀ x, x ∈ l → f x = Some (g x)) → mapM f l = Some (g <$> l).
Proof.
  intros Hf. apply mapM_Some, Forall2_fmap_r, Forall_Forall2_diag, Forall_forall.
  intros x Hx. by apply Hf.
Qed.

Lemma block_with_zeros M x ab :
  block {| receiver_list := [ {| M_locations := M; N_locations := with_zeros x |} ];
           A_location := (Qcopp ab, Q2Qc 0, Q2Qc 0);
           B_location := (ab, Q2Qc 0, Q2Qc 0) |} = x.
Proof.
  unfold block, with_zeros. simpl. rewrite app_nil_r, <- list_fmap_compose.
  induction x as [|v x IH]; [done|]. simpl. by f_equal.
Qed.

Lemma getitem_length df column s : getitem df column = Some s → length s = length df.
Proof. intros H. symmetry. by eapply length_mapM. Qed.

Lemma load_and_define_survey_unfold df cab cmn crho ab mn dobs :
  getitem df cab = Some ab → getitem df cmn = Some mn → getitem df crho = Some dobs →
  load_and_define_survey df cab cmn crho = define_survey ab mn dobs.
Proof.
  intros Hab Hmn Hd. unfold load_and_define_survey. by rewrite Hab, Hmn, Hd.
Qed.

Lemma define_survey_unfold ab mn dobs :
  define_survey ab mn dobs
  = mapM (loop_body ab mn (source_index ab dobs).2) (seq 0 (source_index ab dobs).1).
Proof. unfold define_survey. by destruct (source_index ab dobs). Qed.

(** What the loop builds, for columns of equal length: one source per bound,
    whose block is the slice between its two bounds and whose B electrode is
    at the AB/2 value of the first row of the block. *)
Lemma define_survey_blocks (ab mn dobs : list Qc) :
  length ab = length dobs → length mn = length dobs →
  ∃ source_list,
    define_survey ab mn dobs = Some source_list ∧
    length source_list = (source_index ab dobs).1 ∧
    last (source_index ab dobs).2 = Some (length mn + 1) ∧
    mjoin (block <$> source_list) = mn ∧
    (∀ ii s, source_list !! ii = Some s →
       ∃ lo hi x, (source_index ab dobs).2 !! ii = Some lo ∧
                  (source_index ab dobs).2 !! (ii + 1) = Some hi ∧
                  ab !! lo = Some x ∧
                  block s = py_slice mn lo hi ∧
                  B_location s = (x, Q2Qc 0, Q2Qc 0)) ∧
    (∀ j, j < length dobs →
       exists ! ii, ii < (source_index ab dobs).1 ∧ in_block (source_index ab dobs).2 ii j).
Proof.
  intros Lab Lmn.
  pose proof (bounds_length ab dobs) as Hlen.
  pose proof (bounds_sorted ab dobs Lab) as Hsorted.
  pose proof (bounds_last ab dobs) as Hlast.
  pose proof (bounds_first_index ab dobs) as Hfirst.
  pose proof (bounds_first ab dobs Lab) as Hzero.
  rewrite define_survey_unfold.
  destruct (source_index ab dobs) as [n_sources k]. simpl in *.
  set (g := λ ii,
    {| receiver_list :=
         [ {| M_locations := with_zeros (Qcopp <$> py_slice mn (k !!! ii) (k !!! (ii + 1)));
              N_locations := with_zeros (py_slice mn (k !!! ii) (k !!! (ii + 1))) |} ];
       A_location := (Qcopp (ab !!! (k !!! ii)), Q2Qc 0, Q2Qc 0);
       B_location := (ab !!! (k !!! ii), Q2Qc 0, Q2Qc 0) |}).
  assert (∀ ii, ii < n_sources →
            ∃ x, ab !! (k !!! ii) = Some x ∧ loop_body ab mn k ii = Some (g ii)) as Hbody.
  { intros ii Hii. unfold loop_body.
    rewrite (list_lookup_lookup_total_lt k ii), (list_lookup_lookup_total_lt k (ii + 1)) by lia.
    simpl.
    destruct (Hfirst ii (k !!! ii)) as (x & Hx & _);
      [done|by apply list_lookup_lookup_total_lt; lia|].
    exists x. split; [done|].
    rewrite Hx. simpl. unfold g. by rewrite (list_lookup_total_correct _ _ _ Hx). }
  exists (g <$> seq 0 n_sources). split_and!.
  - apply mapM_Some_fmap. intros ii [_ Hii]%elem_of_seq.
    destruct (Hbody ii) as (x & _ & ?); [lia|done].
  - by rewrite length_fmap, length_seq.
  - rewrite last_lookup, Hlen. replace (Init.Nat.pred (n_sources + 1)) with n_sources by lia.
    rewrite Hlast. f_equal. lia.
  - rewrite <- list_fmap_compose.
    erewrite (list_fmap_ext _ (λ ii, py_slice mn (k !!! ii) (k !!! (ii + 1))));
      [|intros i ii _; apply block_with_zeros].
    rewrite slices_between_bounds by (done || lia).
    rewrite (list_lookup_total_correct _ _ _ Hlast).
    destruct (decide (ab = [])) as [Hnil|Hne].
    + rewrite Hnil in Lab. simpl in Lab.
      destruct mn; [|simpl in *; lia]. unfold py_slice. simpl.
      by rewrite drop_nil, take_nil.
    + rewrite (list_lookup_total_correct _ _ _ (Hzero Hne)). apply py_slice_all. lia.
  - intros ii s Hs. apply list_lookup_fmap_Some in Hs as (ii' & -> & Hii).
    apply lookup_seq in Hii as [-> Hii]. simpl.
    destruct (Hbody ii Hii) as (x & Hx & _).
    exists (k !!! ii), (k !!! (ii + 1)), x. split_and!.
    + apply list_lookup_lookup_total_lt. lia.
    + apply list_lookup_lookup_total_lt. lia.
    + done.
    + apply block_with_zeros.
    + by rewrite (list_lookup_total_correct _ _ _ Hx).
  - intros j Hj.
    assert (ab ≠ []) as Hne by (intros E; rewrite E in Lab; simpl in *; lia).
    destruct (block_exists k n_sources j) as (ii & Hii & Hlo & Hhi).
    + lia.
    + rewrite (list_lookup_total_correct _ _ _ (Hzero Hne)). lia.
    + rewrite (list_lookup_total_correct _ _ _ Hlast). lia.
    + exists ii. split.
      * split; [done|]. exists (k !!! ii), (k !!! (ii + 1)).
        split_and!; [apply list_lookup_lookup_total_lt; lia..|done|done].
      * intros ii' (Hii' & lo & hi & Hlo' & Hhi' & Hb).
        apply list_lookup_total_correct in Hlo', Hhi'. subst lo hi.
        apply (block_unique k ii ii' j); (done || lia).
Qed.

(** In a file whose rows with equal AB/2 are contiguous, the rows of a block
    have the AB/2 value of the first row of the block. *)
Lemma block_rows_share_AB (ab dobs : list Qc) ii j lo x :
  length ab = length dobs → contiguous ab = true →
  ii < (source_index ab dobs).1 →
  in_block (source_index ab dobs).2 ii j →
  (source_index ab dobs).2 !! ii = Some lo →
  ab !! j = Some x → ab !! lo = Some x.
Proof.
  intros Lab Hc Hii (lo' & hi & Hlo' & Hhi & Hb) Hlo Hx.
  assert (lo' = lo) as -> by congruence.
  pose proof (bounds_sorted ab dobs Lab) as Hsorted.
  destruct (bounds_first_occurrence ab dobs j x Hx) as (m & Hm & Hkm).
  pose proof (first_index_le _ _ _ Hx) as Hfj.
  destruct (first_index_spec x ab) as [Hfx _]; [by eapply list_elem_of_lookup_2|].
  assert (first_index x ab ≤ lo) as Hfl.
  { destruct (decide (m ≤ ii)) as [Hle|Hgt].
    - by eapply (sorted_lookup_le _ m ii).
    - assert (hi ≤ first_index x ab); [|lia].
      eapply (sorted_lookup_le _ (ii + 1) m); [done|lia|done..]. }
  eapply (contiguous_between _ (first_index x ab) lo j); [done|done|lia|done..].
Qed.

(** C9: survey construction of the smooth-inversion script.  For a data file
    whose rows with equal AB/2 are contiguous, the loop raises no IndexError
    or KeyError although the last bound [len(dobs)+1] lies past the end of
    the series; it builds one source per bound; the receiver blocks
    [half_MN_separations[k[ii]:k[ii+1]]], taken in order, are exactly the rows
    of the file, so every row index lies in exactly one block; and all rows of
    a block have the AB/2 value of the block's source. *)
Theorem survey_blocks_partition (df : DataFrame)
    (half_AB_column half_MN_column apparent_resistivity_column : string)
    (half_AB_separations half_MN_separations dobs : list Qc) :
  getitem df half_AB_column = Some half_AB_separations →
  getitem df half_MN_column = Some half_MN_separations →
  getitem df apparent_resistivity_column = Some dobs →
  contiguous half_AB_separations = true →
  ∃ source_list,
    load_and_define_survey df half_AB_column half_MN_column apparent_resistivity_column
      = Some source_list ∧
    length source_list = (source_index half_AB_separations dobs).1 ∧
    last (source_index half_AB_separations dobs).2 = Some (length half_MN_separations + 1) ∧
    mjoin (block <$> source_list) = half_MN_separations ∧
    (∀ ii s, source_list !! ii = Some s →
       ∃ lo hi, (source_index half_AB_separations dobs).2 !! ii = Some lo ∧
                (source_index half_AB_separations dobs).2 !! (ii + 1) = Some hi ∧
                block s = py_slice half_MN_separations lo hi) ∧
    (∀ j, j < length dobs →
       exists ! ii, ii < (source_index half_AB_separations dobs).1 ∧
              in_block (source_index half_AB_separations dobs).2 ii j) ∧
    (∀ ii j s x, source_list !! ii = Some s →
       in_block (source_index half_AB_separations dobs).2 ii j →
       half_AB_separations !! j = Some x →
       B_location s = (x, Q2Qc 0, Q2Qc 0)).
Proof.
  intros Hab Hmn Hd Hc.
  pose proof (getitem_length _ _ _ Hab) as Lab.
  pose proof (getitem_length _ _ _ Hmn) as Lmn.
  pose proof (getitem_length _ _ _ Hd) as Ld.
  rewrite (load_and_define_survey_unfold _ _ _ _ _ _ _ Hab Hmn Hd).
  destruct (define_survey_blocks half_AB_separations half_MN_separations dobs)
    as (source_list & Hrun & Hlen & Hlast & Hrows & Hblocks & Hone); [lia..|].
  exists source_list. split_and!; [done..| |done|].
  - intros ii s Hs. destruct (Hblocks ii s Hs) as (lo & hi & x & ? & ? & ? & ? & ?).
    by exists lo, hi.
  - intros ii j s x Hs Hin Hx.
    destruct (Hblocks ii s Hs) as (lo & hi & y & Hlo & Hhi & Hy & _ & ->).
    pose proof (lookup_lt_Some _ _ _ Hs) as Hii. rewrite Hlen in Hii.
    assert (half_AB_separations !! lo = Some x) as Hlox.
    { eapply (block_rows_share_AB _ dobs ii j); [lia|done..]. }
    by simplify_eq.
Qed.

(** C9 at the table [sounding]: five rows at three spacings, three sources. *)
Lemma survey_blocks_partition_sounding :
  getitem sounding "AB/2 (m)" = Some sounding_AB ∧
  getitem sounding "MN/2 (m)" = Some sounding_MN ∧
  getitem sounding "App. Res. (Ohm m)" = Some sounding_rho ∧
  contiguous sounding_AB = true ∧
  ∃ source_list,
    load_and_define_survey sounding "AB/2 (m)" "MN/2 (m)" "App. Res. (Ohm m)"
      = Some source_list ∧
    length source_list = 3 ∧
    mjoin (block <$> source_list) = sounding_MN.
Proof.
  assert (getitem sounding "AB/2 (m)" = Some sounding_AB) as Hab by (vm_compute; reflexivity).
  assert (getitem sounding "MN/2 (m)" = Some sounding_MN) as Hmn by (vm_compute; reflexivity).
  assert (getitem sounding "App. Res. (Ohm m)" = Some sounding_rho) as Hd
    by (vm_compute; reflexivity).
  assert (contiguous sounding_AB = true) as Hc by (vm_compute; reflexivity).
  split_and!; [done..|].
  destruct (survey_blocks_partition sounding "AB/2 (m)" "MN/2 (m)" "App. Res. (Ohm m)"
              sounding_AB sounding_MN sounding_rho Hab Hmn Hd Hc)
    as (source_list & Hrun & Hlen & _ & Hrows & _).
  exists source_list. split_and!; [done| |done].
  rewrite Hlen. vm_compute. reflexivity.
Defined.

(** The survey construction needs no contiguity to run and to cover the
    file: for every data file the loop raises no exception, the blocks taken
    in order are exactly the rows, and every row index lies in exactly one
    block. *)
Theorem survey_covers_every_file (df : DataFrame)
    (half_AB_column half_MN_column apparent_resistivity_column : string)
    (half_AB_separations half_MN_separations dobs : list Qc) :
  getitem df half_AB_column = Some half_AB_separations →
  getitem df half_MN_column = Some half_MN_separations →
  getitem df apparent_resistivity_column = Some dobs →
  ∃ source_list,
    load_and_define_survey df half_AB_column half_MN_column apparent_resistivity_column
      = Some source_list ∧
    mjoin (block <$> source_list) = half_MN_separations ∧
    (∀ j, j < length dobs →
       exists ! ii, ii < (source_index half_AB_separations dobs).1 ∧
              in_block (source_index half_AB_separations dobs).2 ii j).
Proof.
  intros Hab Hmn Hd.
  pose proof (getitem_length _ _ _ Hab) as Lab.
  pose proof (getitem_length _ _ _ Hmn) as Lmn.
  pose proof (getitem_length _ _ _ Hd) as Ld.
  rewrite (load_and_define_survey_unfold _ _ _ _ _ _ _ Hab Hmn Hd).
  destruct (define_survey_blocks half_AB_separations half_MN_separations dobs)
    as (source_list & Hrun & _ & _ & Hrows & _ & Hone); [lia..|].
  by exists source_list.
Qed.

(** The same at the table [scattered], whose rows are not contiguous. *)
Lemma survey_covers_scattered :
  getitem scattered "AB/2 (m)" = Some scattered_AB ∧
  getitem scattered "MN/2 (m)" = Some scattered_MN ∧
  getitem scattered "App. Res. (Ohm m)" = Some scattered_rho ∧
  contiguous scattered_AB = false ∧
  ∃ source_list,
    load_and_define_survey scattered "AB/2 (m)" "MN/2 (m)" "App. Res. (Ohm m)"
      = Some source_list ∧
    mjoin (block <$> source_list) = scattered_MN.
Proof.
  assert (getitem scattered "AB/2 (m)" = Some scattered_AB) as Hab
    by (vm_compute; reflexivity).
  assert (getitem scattered "MN/2 (m)" = Some scattered_MN) as Hmn
    by (vm_compute; reflexivity).
  assert (getitem scattered "App. Res. (Ohm m)" = Some scattered_rho) as Hd
    by (vm_compute; reflexivity).
  split_and!; [done..|vm_compute; reflexivity|].
  destruct (survey_covers_every_file scattered "AB/2 (m)" "MN/2 (m)" "App. Res. (Ohm m)"
              scattered_AB scattered_MN scattered_rho Hab Hmn Hd)
    as (source_list & Hrun & Hrows & _).
  by exists source_list.
Defined.

(** Without contiguity a row can land in the block of another spacing: in
    the table [scattered] the source at AB/2 = 3 receives rows 1 and 2,
    although row 2 was measured at AB/2 = 1.5. *)
Lemma scattered_row_in_foreign_block :
  contiguous scattered_AB = false ∧
  source_index scattered_AB scattered_rho = (2, [0; 1; 4]) ∧
  ∃ source_list s,
    load_and_define_survey scattered "AB/2 (m)" "MN/2 (m)" "App. Res. (Ohm m)"
      = Some source_list ∧
    source_list !! 1 = Some s ∧
    B_location s = (Q2Qc 3, Q2Qc 0, Q2Qc 0) ∧
    block s = Q2Qc <$> [0.5; 1]%Q ∧
    in_block (source_index scattered_AB scattered_rho).2 1 2 ∧
    scattered_AB !! 2 = Some (Q2Qc 1.5).
Proof.
  split_and!; [vm_compute; reflexivity..|].
  survey_of scattered. eexists. split_and!; [vm_compute; reflexivity..| |vm_compute; reflexivity].
  exists 1, 4. split_and!; [vm_compute; reflexivity..|lia|lia].
Qed.

(** The survey has one source per distinct AB/2 value of the file. *)
Lemma one_source_per_spacing (half_AB_separations dobs : list Qc) :
  (source_index half_AB_separations dobs).1 = length (remove_dups half_AB_separations).
Proof.
  rewrite source_index_unfold. simpl. rewrite length_fmap.
  by rewrite merge_sort_Permutation.
Qed.

(** ** Uncertainties *)

Lemma uncertainty_positive (uncertainty_floor uncertainty_percent d : Qc) :
  (Q2Qc 0 < uncertainty_floor)%Qc → (Q2Qc 0 ≤ uncertainty_percent)%Qc →
  (Q2Qc 0 < uncertainty_floor + Q2Qc 0.01 * uncertainty_percent * Qcabs d)%Qc.
Proof.
  intros Hfloor Hpercent. apply Qcplus_pos_nonneg; [done|].
  apply Qcmult_nonneg_nonneg; [|apply Qcabs_nonneg].
  apply Qcmult_nonneg_nonneg; [|done]. by vm_compute.
Qed.

(** C10, as amended: with [uncertainty_column] None, datum [i] gets
    [uncertainty_floor + 0.01 * uncertainty_percent * |dobs[i]|], whatever the
    floor and the percentage are; with a column name, the uncertainties are
    that column of the file as it is; and in the first case the uncertainty
    of a datum that is a number is strictly positive when the floor is
    positive and the percentage is not negative.  The uncertainty of a blank
    datum is NaN.  [dobs] are data that are all numbers, [cells] data that
    may have blanks. *)
Theorem uncertainties_assigned (df : DataFrame) (column : string)
    (uncertainty_floor uncertainty_percent : Qc) (dobs : list Qc) (cells : list datum) :
  (∃ uncertainties,
     assign_uncertainties df None uncertainty_floor uncertainty_percent dobs
       = Some uncertainties ∧
     length uncertainties = length dobs ∧
     (∀ i d, dobs !! i = Some d →
        uncertainties !! i
        = Some (uncertainty_floor + Q2Qc 0.01 * uncertainty_percent * Qcabs d)%Qc) ∧
     uncertainties_of uncertainty_floor uncertainty_percent (Number <$> dobs)
       = Number <$> uncertainties ∧
     ((Q2Qc 0 < uncertainty_floor)%Qc → (Q2Qc 0 ≤ uncertainty_percent)%Qc →
      ∀ i u, uncertainties !! i = Some u → (Q2Qc 0 < u)%Qc)) ∧
  assign_uncertainties df (Some column) uncertainty_floor uncertainty_percent dobs
    = getitem df column ∧
  length (uncertainties_of uncertainty_floor uncertainty_percent cells) = length cells ∧
  (∀ i d, cells !! i = Some (Number d) →
     uncertainties_of uncertainty_floor uncertainty_percent cells !! i
     = Some (Number (uncertainty_floor + Q2Qc 0.01 * uncertainty_percent * Qcabs d)%Qc)) ∧
  (∀ i, cells !! i = Some NaN →
     uncertainties_of uncertainty_floor uncertainty_percent cells !! i = Some NaN) ∧
  ((Q2Qc 0 < uncertainty_floor)%Qc → (Q2Qc 0 ≤ uncertainty_percent)%Qc →
   ∀ i d, cells !! i = Some (Number d) →
     ∃ u, uncertainties_of uncertainty_floor uncertainty_percent cells !! i = Some u ∧
          positive u).
Proof.
  split_and!.
  - eexists. split; [done|]. split_and!.
    + by rewrite length_fmap.
    + intros i d Hd. by rewrite list_lookup_fmap, Hd.
    + unfold uncertainties_of. rewrite <- !list_fmap_compose.
      by apply list_fmap_ext.
    + intros Hfloor Hpercent i u Hu. apply list_lookup_fmap_Some in Hu as (d & -> & _).
      by apply uncertainty_positive.
  - done.
  - unfold uncertainties_of. by rewrite length_fmap.
  - intros i d Hd. unfold uncertainties_of. by rewrite list_lookup_fmap, Hd.
  - intros i Hd. unfold uncertainties_of. by rewrite list_lookup_fmap, Hd.
  - intros Hfloor Hpercent i d Hd. eexists. split.
    + unfold uncertainties_of. rewrite list_lookup_fmap, Hd. reflexivity.
    + simpl. by apply uncertainty_positive.
Qed.

(** C10 at the values of the script, floor 5 and percentage 5, on the
    readings of [sounding], and on two cells of which the second is blank. *)
Lemma uncertainties_assigned_sounding :
  (Q2Qc 0 < Q2Qc 5)%Qc ∧ (Q2Qc 0 ≤ Q2Qc 5)%Qc ∧
  (∃ uncertainties,
     assign_uncertainties sounding None (Q2Qc 5) (Q2Qc 5) sounding_rho = Some uncertainties ∧
     length uncertainties = length sounding_rho ∧
     (∀ i u, uncertainties !! i = Some u → (Q2Qc 0 < u)%Qc)) ∧
  assign_uncertainties sounding (Some "MN/2 (m)") (Q2Qc 5) (Q2Qc 5) sounding_rho
    = getitem sounding "MN/2 (m)" ∧
  (∃ u, uncertainties_of (Q2Qc 5) (Q2Qc 5) [Number (Q2Qc 348); NaN] !! 0 = Some u ∧
        positive u) ∧
  uncertainties_of (Q2Qc 5) (Q2Qc 5) [Number (Q2Qc 348); NaN] !! 1 = Some NaN.
Proof.
  assert (Q2Qc 0 < Q2Qc 5)%Qc as Hfloor by (vm_compute; reflexivity).
  assert (Q2Qc 0 ≤ Q2Qc 5)%Qc as Hpercent by (vm_compute; discriminate).
  destruct (uncertainties_assigned sounding "MN/2 (m)" (Q2Qc 5) (Q2Qc 5) sounding_rho
              [Number (Q2Qc 348); NaN])
    as ((u & Hu & Hlen & _ & _ & Hpos) & Hcol & _ & _ & Hnan & Hcell).
  split_and!; [done|done| |done| |].
  - exists u. split_and!; [done|done|]. by apply Hpos.
  - by apply (Hcell Hfloor Hpercent 0 (Q2Qc 348)).
  - by apply (Hnan 1).
Defined.

(** With a percentage that is not negative, no uncertainty is below the
    floor, whatever the floor is. *)
Theorem uncertainty_at_least_floor (df : DataFrame)
    (uncertainty_floor uncertainty_percent : Qc) (dobs uncertainties : list Qc) :
  (Q2Qc 0 ≤ uncertainty_percent)%Qc →
  assign_uncertainties df None uncertainty_floor uncertainty_percent dobs
    = Some uncertainties →
  Forall (λ u, (uncertainty_floor ≤ u)%Qc) uncertainties.
Proof.
  intros Hpercent [= <-]. apply Forall_fmap, Forall_forall. intros d _. simpl.
  rewrite <- (Qcplus_0_r uncertainty_floor) at 1. apply Qcplus_le_mono_l.
  apply Qcmult_nonneg_nonneg; [|apply Qcabs_nonneg].
  apply Qcmult_nonneg_nonneg; [|done]. by vm_compute.
Qed.

(** At floor 0 and percentage 5 on the readings of [sounding]. *)
Lemma uncertainty_at_least_floor_sounding :
  (Q2Qc 0 ≤ Q2Qc 5)%Qc ∧
  ∃ uncertainties,
    assign_uncertainties sounding None (Q2Qc 0) (Q2Qc 5) sounding_rho = Some uncertainties ∧
    Forall (λ u, (Q2Qc 0 ≤ u)%Qc) uncertainties.
Proof.
  assert (Q2Qc 0 ≤ Q2Qc 5)%Qc as Hpercent by (vm_compute; discriminate).
  split; [done|]. eexists. split; [reflexivity|].
  by apply (uncertainty_at_least_floor sounding (Q2Qc 0) (Q2Qc 5) sounding_rho).
Defined.

(** C10, as stated, fails: a positive floor alone does not make the
    uncertainties positive.  With floor 5 and percentage -5, the datum 1000
    gets the uncertainty 5 - 50 = -45; and with floor 5 and percentage 5, a
    blank datum gets the uncertainty NaN, which is not positive. *)
Lemma uncertainty_negative_percent :
  (Q2Qc 0 < Q2Qc 5)%Qc ∧
  assign_uncertainties sounding None (Q2Qc 5) (Q2Qc (-5)) [Q2Qc 1000]
    = Some [(Q2Qc 5 + Q2Qc 0.01 * Q2Qc (-5) * Qcabs (Q2Qc 1000))%Qc] ∧
  (Q2Qc 5 + Q2Qc 0.01 * Q2Qc (-5) * Qcabs (Q2Qc 1000) = Q2Qc (-45))%Qc ∧
  (Q2Qc (-45) < Q2Qc 0)%Qc ∧
  uncertainties_of (Q2Qc 5) (Q2Qc 5) [NaN] = [NaN] ∧
  ¬ positive NaN.
Proof.
  split_and!.
  - vm_compute. reflexivity.
  - reflexivity.
  - apply Qc_is_canon. vm_compute. reflexivity.
  - vm_compute. reflexivity.
  - reflexivity.
  - intros [].
Qed.

(** ** The notebooks *)


(** C1, as amended: three of the five notebooks (the parametric and the
    smooth inversion app notebooks and the layered-cylinder notebook) get all
    they do from an app imported from the utils package: every call they
    make is the instantiation of that app or a method call on it.  The two
    other notebooks import nothing from utils: the smooth-inversion script
    calls SimPEG, discretize, numpy, pandas and matplotlib inline, and the
    plotting notebook calls pandas and matplotlib. *)
Theorem notebooks_by_library :
  (imports_from "utils" parametric_inversion_app = [("utils.DCResistivity", "DC1D3LayerApp")] ∧
   libraries parametric_inversion_app = Some ["utils"]) ∧
  (imports_from "utils" smooth_inversion_app = [("utils.DCResistivity", "DC1DInversionApp")] ∧
   libraries smooth_inversion_app = Some ["utils"]) ∧
  (imports_from "utils" DC_layered_cylinder = [("utils.DCWidgetResLayer2_5D", "ResLayer_app")] ∧
   libraries DC_layered_cylinder = Some ["utils"]) ∧
  (imports_from "utils" DC_1d_smooth_inversion_code = [] ∧
   libraries DC_1d_smooth_inversion_code
   = Some ["pandas"; "discretize"; "SimPEG"; "builtins"; "numpy"; "matplotlib"]) ∧
  (imports_from "utils" DC_plot_sounding_data = [] ∧
   libraries DC_plot_sounding_data = Some ["builtins"; "pandas"; "matplotlib"]) ∧
  wires_utils_apps <$> repository = [true; true; false; true; false].
Proof. split_and!; by_computation. Qed.

(** C1, as stated, fails on the smooth-inversion script: it is a notebook of
    the repository, imports nothing from utils and makes calls that do not go
    through a utils app. *)
Lemma smooth_inversion_code_wires_no_app :
  DC_1d_smooth_inversion_code ∈ repository ∧
  wires_utils_apps DC_1d_smooth_inversion_code = false ∧
  imports_from "utils" DC_1d_smooth_inversion_code = [] ∧
  Exists (λ c, library_of c = Some "SimPEG") (calls DC_1d_smooth_inversion_code).
Proof.
  split_and!.
  - do 2 apply list_elem_of_further. apply list_elem_of_here.
  - by_computation.
  - by_computation.
  - by_computation.
Qed.



(** C3: the library objects the smooth-inversion script composes.  The
    simulation is [dc.simulation_1d.DCSimulation_1D] with the survey, the map
    [maps.IdentityMap(mesh)*maps.ExpMap()], the layer thicknesses
    [5*1.1**np.arange(21)] and data type "apparent_resistivity"; the
    regularization is [regularization.Simple] and the optimization
    [optimization.InexactGaussNewton(maxIter=30, maxIterCG=20, ...)]; the
    inverse problem is [BaseInvProblem(dmis, reg, opt)]; and the recovered
    model is [BaseInversion(inv_prob, directives_list).run(starting_model)]. *)
Theorem smooth_inversion_composition :
  ∃ survey layer_thicknesses mesh starting_model model_map simulation data_object
    dmis reg opt inv_prob directives_list inv,
    script_namespace !! "survey" = Some survey ∧
    script_namespace !! "layer_thicknesses" = Some layer_thicknesses ∧
    layer_thicknesses
    = PBin Mul (PInt 5) (PBin Pow (PFloat 11 (-1)) (PCall (np_ "arange") [PInt 21] [])) ∧
    script_namespace !! "mesh" = Some mesh ∧
    script_namespace !! "starting_model" = Some starting_model ∧
    script_namespace !! "model_map" = Some model_map ∧
    model_map
    = PBin Mul (PCall (SimPEG_ "maps" "IdentityMap") [mesh] [])
               (PCall (SimPEG_ "maps" "ExpMap") [] []) ∧
    script_namespace !! "simulation" = Some simulation ∧
    simulation
    = PCall (PAttr (PAttr dc_ "simulation_1d") "DCSimulation_1D") []
        [("survey", survey); ("rhoMap", model_map); ("thicknesses", layer_thicknesses);
         ("data_type", PStr "apparent_resistivity")] ∧
    script_namespace !! "data_object" = Some data_object ∧
    script_namespace !! "dmis" = Some dmis ∧
    dmis
    = PCall (SimPEG_ "data_misfit" "L2DataMisfit") []
        [("simulation", simulation); ("data", data_object)] ∧
    script_namespace !! "reg" = Some reg ∧
    reg
    = PCall (SimPEG_ "regularization" "Simple") [mesh]
        [("alpha_s", PFloat 1 (-3)); ("alpha_x", PFloat 1 0); ("mref", starting_model)] ∧
    script_namespace !! "opt" = Some opt ∧
    opt
    = PCall (SimPEG_ "optimization" "InexactGaussNewton") []
        [("maxIter", PInt 30); ("maxIterCG", PInt 20); ("print_type", PStr "ubc")] ∧
    script_namespace !! "inv_prob" = Some inv_prob ∧
    inv_prob = PCall (SimPEG_ "inverse_problem" "BaseInvProblem") [dmis; reg; opt] [] ∧
    script_namespace !! "directives_list" = Some directives_list ∧
    script_namespace !! "inv" = Some inv ∧
    inv = PCall (SimPEG_ "inversion" "BaseInversion") [inv_prob; directives_list] [] ∧
    script_namespace !! "recovered_model" = Some (PCall (PAttr inv "run") [starting_model] []).
Proof.
  bound "survey". bound "layer_thicknesses". bound "mesh". bound "starting_model".
  bound "model_map". bound "simulation". bound "data_object". bound "dmis". bound "reg".
  bound "opt". bound "inv_prob". bound "directives_list". bound "inv".
  split_and!; by_computation.
Qed.

(** C5: exactly one notebook is about the cylinder in a layered half-space
    and the potential around it; exactly one notebook instantiates
    [ResLayer_app], the same one; that instantiation is the only call it
    makes, and besides imports and a line magic its code is the assignment of
    a font size and the instantiation. *)
Theorem layered_cylinder_notebook :
  filter (λ nb, mentions "cylinder" nb = true) repository = [DC_layered_cylinder] ∧
  filter (λ nb, mentions "potential" nb = true) repository = [DC_layered_cylinder] ∧
  filter (λ nb, instantiates "ResLayer_app" nb = true) repository = [DC_layered_cylinder] ∧
  imports_from "utils" DC_layered_cylinder = [("utils.DCWidgetResLayer2_5D", "ResLayer_app")] ∧
  calls DC_layered_cylinder
  = [PCall (PAttr (PModule "utils.DCWidgetResLayer2_5D") "ResLayer_app") [] []] ∧
  effective_statements DC_layered_cylinder
  = [SAssign (ESubscript (EName "rcParams") (EStr "font.size")) (EInt 16);
     SAssign (EName "app") (call0 (EName "ResLayer_app") [])].
Proof. split_and!; by_computation. Qed.



(** C8: the smooth-inversion script calls [directives.UpdateSensitivityWeights]
    once, binds the result to [update_sensitivity_weights] and never reads
    it: the binding is the only statement of the script in which a name about
    sensitivity or weights occurs, and the six statements in which
    [directives] occurs are its import and the construction of five
    directives.  The directives list is [starting_beta, beta_schedule,
    save_iteration, target_misfit]; it occurs in two statements, the one that
    builds it and [inv = inversion.BaseInversion(inv_prob, directives_list)],
    so that it reaches [BaseInversion] as it was built.  [inv] occurs once
    more, in [recovered_model = inv.run(starting_model)]; [reg] occurs in the
    statement that builds it and as an argument of [BaseInvProblem], and
    [inv_prob] besides in the plot of [inv_prob.dpred]: nothing is assigned
    to an attribute of any of them.  Nothing the recovered model is computed
    from involves UpdateSensitivityWeights; and [getJ] and [cell_weights]
    occur in comment lines only. *)
Theorem sensitivity_weights_unused :
  script_namespace !! "update_sensitivity_weights"
  = Some (PCall (SimPEG_ "directives" "UpdateSensitivityWeights") [] []) ∧
  ("update_sensitivity_weights" ∉ all_reads DC_1d_smooth_inversion_code) ∧
  (∃ starting_beta beta_schedule save_iteration target_misfit inv_prob recovered_model,
     script_namespace !! "starting_beta" = Some starting_beta ∧
     script_namespace !! "beta_schedule" = Some beta_schedule ∧
     script_namespace !! "save_iteration" = Some save_iteration ∧
     script_namespace !! "target_misfit" = Some target_misfit ∧
     script_namespace !! "inv_prob" = Some inv_prob ∧
     script_namespace !! "directives_list"
     = Some (PList [starting_beta; beta_schedule; save_iteration; target_misfit]) ∧
     script_namespace !! "inv"
     = Some (PCall (SimPEG_ "inversion" "BaseInversion")
               [inv_prob; PList [starting_beta; beta_schedule; save_iteration; target_misfit]]
               []) ∧
     script_namespace !! "recovered_model" = Some recovered_model ∧
     ("UpdateSensitivityWeights" ∉ attributes recovered_model) ∧
     ("UpdateSensitivityWeights" ∉ attributes inv_prob)) ∧
  identifiers_with "cell_weights" = [] ∧
  identifiers_with "getJ" = [] ∧
  filter (λ x, contains "wr" x = true) (comments DC_1d_smooth_inversion_code)
  = ["# wr = np.sum(simulation.getJ(starting_model)**2, axis=0)**0.5";
     "# wr = (wr/np.max(np.abs(wr)))";
     "# reg.cell_weights = wr  # include in regularization"] ∧
  filter (λ c, callee_name c = "UpdateSensitivityWeights") (calls DC_1d_smooth_inversion_code)
  = [PCall (SimPEG_ "directives" "UpdateSensitivityWeights") [] []] ∧
  statements_about ["ensitivity"; "weight"; "Weight"] DC_1d_smooth_inversion_code
  = [SAssign (EName "update_sensitivity_weights")
       (call0 (EName "directives" ~> "UpdateSensitivityWeights") [])] ∧
  statements_with "directives" DC_1d_smooth_inversion_code
  = [SFromImport "SimPEG"
       [("maps", None); ("data", None); ("data_misfit", None); ("regularization", None);
        ("optimization", None); ("inverse_problem", None); ("inversion", None);
        ("directives", None)];
     SAssign (EName "starting_beta")
       (ECall (EName "directives" ~> "BetaEstimate_ByEig") [] [("beta0_ratio", EFloat 1 0)]);
     SAssign (EName "beta_schedule")
       (ECall (EName "directives" ~> "BetaSchedule") []
          [("coolingFactor", EFloat 2 0); ("coolingRate", EFloat 1 0)]);
     SAssign (EName "update_sensitivity_weights")
       (call0 (EName "directives" ~> "UpdateSensitivityWeights") []);
     SAssign (EName "save_iteration")
       (call0 (EName "directives" ~> "SaveOutputDictEveryIteration") []);
     SAssign (EName "target_misfit")
       (ECall (EName "directives" ~> "TargetMisfit") [] [("chifact", EInt 1)])] ∧
  statements_with "directives_list" DC_1d_smooth_inversion_code
  = [SAssign (EName "directives_list")
       (EList [EName "starting_beta"; EName "beta_schedule";
               EName "save_iteration"; EName "target_misfit"]);
     SAssign (EName "inv")
       (call0 (EName "inversion" ~> "BaseInversion")
          [EName "inv_prob"; EName "directives_list"])] ∧
  statements_with "inv" DC_1d_smooth_inversion_code
  = [SAssign (EName "inv")
       (call0 (EName "inversion" ~> "BaseInversion")
          [EName "inv_prob"; EName "directives_list"]);
     SAssign (EName "recovered_model") (method "inv" "run" [EName "starting_model"] [])] ∧
  statements_with "reg" DC_1d_smooth_inversion_code
  = [SAssign (EName "reg")
       (ECall (EName "regularization" ~> "Simple") [EName "mesh"]
          [("alpha_s", EFloat 1 (-3)); ("alpha_x", EFloat 1 0);
           ("mref", EName "starting_model")]);
     SAssign (EName "inv_prob")
       (call0 (EName "inverse_problem" ~> "BaseInvProblem")
          [EName "dmis"; EName "reg"; EName "opt"])] ∧
  statements_with "inv_prob" DC_1d_smooth_inversion_code
  = [SAssign (EName "inv_prob")
       (call0 (EName "inverse_problem" ~> "BaseInvProblem")
          [EName "dmis"; EName "reg"; EName "opt"]);
     SAssign (EName "inv")
       (call0 (EName "inversion" ~> "BaseInversion")
          [EName "inv_prob"; EName "directives_list"]);
     SExpr (ECall (EName "ax" ~> "loglog")
              [EName "half_AB_separations"; EName "inv_prob" ~> "dpred"; EStr "k"]
              [("lw", EInt 2)])].
Proof.
  split_and!; try by_computation.
  bound "starting_beta". bound "beta_schedule". bound "save_iteration".
  bound "target_misfit". bound "inv_prob". bound "recovered_model".
  split_and!; by_computation.
Qed.

(** ** The script and its arithmetic *)

(** The bounds [k] of the script are
    [np.r_[np.sort(k0), len(dobs)+1]] with [k0] the index array returned by
    [np.unique(half_AB_separations, return_index=True)], and [n_sources] is
    [len(k0)]: what [source_index] computes. *)
Lemma script_bounds :
  ∃ half_AB_separations dobs k0,
    script_namespace !! "half_AB_separations" = Some half_AB_separations ∧
    script_namespace !! "dobs" = Some dobs ∧
    k0 = PItem (PCall (np_ "unique") [half_AB_separations] [("return_index", PBool true)]) 1 ∧
    script_namespace !! "n_sources" = Some (PCall (PBuiltin "len") [k0] []) ∧
    script_namespace !! "k"
    = Some (PSubscript (np_ "r_")
              (PTuple [PCall (np_ "sort") [k0] [];
                       PBin Add (PCall (PBuiltin "len") [dobs] []) (PInt 1)])).
Proof.
  bound "half_AB_separations". bound "dobs". eexists.
  split_and!; [by_computation|by_computation|reflexivity|by_computation..].
Qed.

(** As distributed the script sets [uncertainty_column = None], floor 5. and
    percentage 5.; the uncertainties are the column [df[None].values] if
    [None is not None] and [5. + 0.01*5.*np.abs(dobs)] otherwise: the formula
    of [assign_uncertainties]. *)
Lemma script_uncertainties :
  ∃ df dobs,
    script_namespace !! "df" = Some df ∧
    script_namespace !! "dobs" = Some dobs ∧
    script_namespace !! "uncertainty_column" = Some PNone ∧
    script_namespace !! "uncertainty_floor" = Some (PFloat 5 0) ∧
    script_namespace !! "uncertainty_percent" = Some (PFloat 5 0) ∧
    script_namespace !! "uncertainties"
    = Some (PPhi (PBin IsNot PNone PNone)
              (Some (PAttr (PSubscript df PNone) "values"))
              (Some (PBin Add (PFloat 5 0)
                       (PBin Mul (PBin Mul (PFloat 1 (-2)) (PFloat 5 0))
                                 (PCall (np_ "abs") [dobs] []))))).
Proof. bound "df". bound "dobs". split_and!; by_computation. Qed.

(** ** More on the survey construction *)

Lemma np_unique_NoDup ar : NoDup (np_unique ar).2.
Proof.
  unfold np_unique. simpl. apply NoDup_fmap_2_strong.
  - intros x y Hx Hy Hxy.
    rewrite merge_sort_Permutation, elem_of_remove_dups in Hx, Hy.
    destruct (first_index_spec x ar Hx) as [H1 _].
    destruct (first_index_spec y ar Hy) as [H2 _]. congruence.
  - rewrite merge_sort_Permutation. apply NoDup_remove_dups.
Qed.

Lemma sorted_lookup_lt (k : list nat) i j x y :
  StronglySorted Nat.le k → NoDup k → i < j → k !! i = Some x → k !! j = Some y → x < y.
Proof.
  intros Hk Hnd Hij Hi Hj.
  assert (x ≤ y) by (eapply (sorted_lookup_le k i j); [done|lia|done..]).
  assert (x ≠ y); [|lia].
  intros ->. assert (i = j); [|lia]. by eapply NoDup_lookup.
Qed.

Lemma bounds_NoDup (ab dobs : list Qc) :
  length ab = length dobs → NoDup (source_index ab dobs).2.
Proof.
  intros Lab. rewrite source_index_unfold. simpl. apply NoDup_app. split_and!.
  - unfold np_sort. rewrite merge_sort_Permutation. apply np_unique_NoDup.
  - intros i Hi ->%list_elem_of_singleton.
    apply np_sort_elem_of, np_unique_index in Hi as (x & Hx & Hi).
    destruct (first_index_spec x ab Hx) as [Hlt%lookup_lt_Some _]. lia.
  - apply NoDup_singleton.
Qed.

Lemma py_slice_length {A} (s : list A) a b :
  length (py_slice s a b) = b `min` length s - a `min` length s.
Proof. unfold py_slice. rewrite length_take, length_drop. lia. Qed.

Lemma block_length s :
  length (block s) = sum_list ((λ r, length (N_locations r)) <$> receiver_list s).
Proof.
  unfold block. induction (receiver_list s) as [|r rs IH]; [done|].
  simpl. rewrite length_app, length_fmap. by f_equal.
Qed.

(** The survey expects exactly as many data as the file has rows, and no
    source is left without a receiver: [survey.nD = len(dobs)], and every
    block has at least one row. *)
Theorem survey_data_count (df : DataFrame)
    (half_AB_column half_MN_column apparent_resistivity_column : string)
    (dobs : list Qc) (source_list : list sources_Dipole) :
  getitem df apparent_resistivity_column = Some dobs →
  load_and_define_survey df half_AB_column half_MN_column apparent_resistivity_column
    = Some source_list →
  survey_nD source_list = length dobs ∧
  Forall (λ s, block s ≠ []) source_list.
Proof.
  intros Hd Hrun. unfold load_and_define_survey in Hrun.
  destruct (getitem df half_AB_column) as [ab|] eqn:Hab; [|done].
  destruct (getitem df half_MN_column) as [mn|] eqn:Hmn; [|done].
  rewrite Hd in Hrun. simpl in Hrun.
  pose proof (getitem_length _ _ _ Hab) as Lab.
  pose proof (getitem_length _ _ _ Hmn) as Lmn.
  pose proof (getitem_length _ _ _ Hd) as Ld.
  destruct (define_survey_blocks ab mn dobs)
    as (sl & Hrun' & Hlen & Hlast & Hrows & Hblocks & Hone); [lia..|].
  assert (sl = source_list) as -> by congruence.
  split.
  - unfold survey_nD.
    rewrite (list_fmap_ext _ (λ s, length (block s)) source_list)
      by (intros i s _; symmetry; apply block_length).
    trans (length mn); [|lia]. rewrite <- Hrows.
    clear. induction source_list as [|s sl IH]; [done|].
    simpl. rewrite length_app. by f_equal.
  - apply Forall_forall. intros s [ii Hs]%list_elem_of_lookup_1.
    destruct (Hblocks ii s Hs) as (lo & hi & x & Hlo & Hhi & Hx & Hb & _).
    pose proof (lookup_lt_Some _ _ _ Hx) as Hlt.
    assert (lo < hi) as Hlohi.
    { eapply (sorted_lookup_lt _ ii (ii + 1)); [|apply bounds_NoDup|lia|done..].
      - apply bounds_sorted. lia.
      - lia. }
    intros Hnil. pose proof (py_slice_length mn lo hi) as Hl.
    rewrite <- Hb, Hnil in Hl. simpl in Hl. lia.
Qed.

(** At the table [sounding]: five data. *)
Lemma survey_data_count_sounding :
  getitem sounding "App. Res. (Ohm m)" = Some sounding_rho ∧
  ∃ source_list,
    load_and_define_survey sounding "AB/2 (m)" "MN/2 (m)" "App. Res. (Ohm m)"
      = Some source_list ∧
    survey_nD source_list = 5 ∧
    Forall (λ s, block s ≠ []) source_list.
Proof.
  assert (getitem sounding "App. Res. (Ohm m)" = Some sounding_rho) as Hd
    by (vm_compute; reflexivity).
  split; [done|]. survey_of sounding.
  split; [vm_compute; reflexivity|].
  eapply (survey_data_count sounding "AB/2 (m)" "MN/2 (m)" "App. Res. (Ohm m)" sounding_rho);
    [done|vm_compute; reflexivity].
Defined.

(** Every source stands at the first row of its AB/2 value. *)
Lemma sources_at_first_occurrences (df : DataFrame) cab cmn crho ab source_list :
  getitem df cab = Some ab →
  load_and_define_survey df cab cmn crho = Some source_list →
  ∃ dobs,
    length ab = length dobs ∧
    length source_list = (source_index ab dobs).1 ∧
    ∀ ii s, source_list !! ii = Some s →
      ∃ lo, (source_index ab dobs).2 !! ii = Some lo ∧
            ab !! lo = Some (source_AB s) ∧
            lo = first_index (source_AB s) ab.
Proof.
  intros Hab Hrun. unfold load_and_define_survey in Hrun. rewrite Hab in Hrun.
  destruct (getitem df cmn) as [mn|] eqn:Hmn; [|done].
  destruct (getitem df crho) as [dobs|] eqn:Hd; [|done]. simpl in Hrun.
  pose proof (getitem_length _ _ _ Hab) as Lab.
  pose proof (getitem_length _ _ _ Hmn) as Lmn.
  pose proof (getitem_length _ _ _ Hd) as Ld.
  destruct (define_survey_blocks ab mn dobs)
    as (sl & Hrun' & Hlen & _ & _ & Hblocks & _); [lia..|].
  assert (sl = source_list) as -> by congruence.
  exists dobs. split_and!; [lia|done|].
  intros ii s Hs. destruct (Hblocks ii s Hs) as (lo & hi & x & Hlo & _ & Hx & _ & HB).
  assert (source_AB s = x) as -> by (unfold source_AB; by rewrite HB).
  exists lo. split_and!; [done..|].
  pose proof (lookup_lt_Some _ _ _ Hs) as Hii. rewrite Hlen in Hii.
  destruct (bounds_first_index ab dobs ii lo Hii Hlo) as (y & Hy & ->). congruence.
Qed.

(** The sources of the survey stand for pairwise different AB/2 values, and
    the values they stand for are exactly the AB/2 values of the file. *)
Theorem survey_sources_distinct (df : DataFrame)
    (half_AB_column half_MN_column apparent_resistivity_column : string)
    (half_AB_separations : list Qc) (source_list : list sources_Dipole) :
  getitem df half_AB_column = Some half_AB_separations →
  load_and_define_survey df half_AB_column half_MN_column apparent_resistivity_column
    = Some source_list →
  NoDup (source_AB <$> source_list) ∧
  ∀ x, x ∈ source_AB <$> source_list ↔ x ∈ half_AB_separations.
Proof.
  intros Hab Hrun.
  destruct (sources_at_first_occurrences _ _ _ _ _ _ Hab Hrun) as (dobs & Lab & Hlen & Hsrc).
  split.
  - apply NoDup_alt. intros i j x Hi Hj.
    apply list_lookup_fmap_Some in Hi as (s & -> & Hs).
    apply list_lookup_fmap_Some in Hj as (t & Hst & Ht).
    destruct (Hsrc i s Hs) as (lo & Hlo & _ & ->).
    destruct (Hsrc j t Ht) as (lo' & Hlo' & _ & ->).
    rewrite <- Hst in Hlo'.
    eapply NoDup_lookup; [by apply (bounds_NoDup half_AB_separations dobs)|done..].
  - intros x. rewrite list_elem_of_fmap. split.
    + intros (s & -> & [ii Hs]%list_elem_of_lookup_1).
      destruct (Hsrc ii s Hs) as (lo & _ & Hx & _). by eapply list_elem_of_lookup_2.
    + intros [j Hj]%list_elem_of_lookup_1.
      destruct (bounds_first_occurrence half_AB_separations dobs j x Hj) as (m & Hm & Hkm).
      destruct (lookup_lt_is_Some_2 source_list m) as [s Hs]; [lia|].
      destruct (Hsrc m s Hs) as (lo & Hlo & Hx & _).
      exists s. split; [|by eapply list_elem_of_lookup_2].
      assert (lo = first_index x half_AB_separations) as -> by congruence.
      destruct (first_index_spec x half_AB_separations) as [Hfx _];
        [by eapply list_elem_of_lookup_2|]. congruence.
Qed.

(** At the table [scattered]: two sources for three rows. *)
Lemma survey_sources_distinct_scattered :
  getitem scattered "AB/2 (m)" = Some scattered_AB ∧
  ∃ source_list,
    load_and_define_survey scattered "AB/2 (m)" "MN/2 (m)" "App. Res. (Ohm m)"
      = Some source_list ∧
    NoDup (source_AB <$> source_list) ∧
    ∀ x, x ∈ source_AB <$> source_list ↔ x ∈ scattered_AB.
Proof.
  assert (getitem scattered "AB/2 (m)" = Some scattered_AB) as Hab
    by (vm_compute; reflexivity).
  split; [done|]. survey_of scattered.
  split; [vm_compute; reflexivity|].
  eapply (survey_sources_distinct scattered "AB/2 (m)" "MN/2 (m)" "App. Res. (Ohm m)");
    [done|vm_compute; reflexivity].
Defined.

(** ** Files sorted by AB/2 *)

Lemma sorted_no_return (x : Qc) (l : list Qc) :
  StronglySorted Qcle l → Forall (Qcle x) l → x ∉ drop_equal x l.
Proof.
  induction 1 as [|y l Hl IH Hy]; intros Hx; simpl; [by apply not_elem_of_nil|].
  apply Forall_cons in Hx as [Hxy Hx].
  destruct (decide (x = y)) as [->|Hne]; [by apply IH|].
  intros [->|Hin]%elem_of_cons; [done|].
  rewrite Forall_forall in Hy. apply Hne, Qcle_antisym; [done|by apply Hy].
Qed.

(** A file whose AB/2 column does not decrease has its equal rows together. *)
Lemma sorted_contiguous (l : list Qc) : StronglySorted Qcle l → contiguous l = true.
Proof.
  induction 1 as [|x l Hl IH Hx]; [done|]. simpl.
  rewrite IH, andb_true_r. apply bool_decide_eq_true. by apply sorted_no_return.
Qed.

Lemma sorted_lookup_Qcle (l : list Qc) i j x y :
  StronglySorted Qcle l → i ≤ j → l !! i = Some x → l !! j = Some y → (x ≤ y)%Qc.
Proof.
  intros Hl. revert i j. induction Hl as [|z l Hl IH Hz]; intros i j Hij Hi Hj; [done|].
  destruct i as [|i], j as [|j]; simplify_eq/=; [apply Qcle_refl| |lia|].
  - rewrite Forall_forall in Hz. apply Hz. by eapply list_elem_of_lookup_2.
  - apply (IH i j); [lia|done..].
Qed.

(** For a file sorted by AB/2 (the usual sounding file), every row is in the
    block of the source that stands for the row's own AB/2, and the sources
    come in strictly increasing AB/2. *)
Theorem sorted_file_survey (df : DataFrame)
    (half_AB_column half_MN_column apparent_resistivity_column : string)
    (half_AB_separations dobs : list Qc) (source_list : list sources_Dipole) :
  getitem df half_AB_column = Some half_AB_separations →
  getitem df apparent_resistivity_column = Some dobs →
  StronglySorted Qcle half_AB_separations →
  load_and_define_survey df half_AB_column half_MN_column apparent_resistivity_column
    = Some source_list →
  (∀ ii j s x, source_list !! ii = Some s →
     in_block (source_index half_AB_separations dobs).2 ii j →
     half_AB_separations !! j = Some x →
     source_AB s = x) ∧
  (∀ i j s t, i < j → source_list !! i = Some s → source_list !! j = Some t →
     (source_AB s < source_AB t)%Qc).
Proof.
  intros Hab Hd Hsorted Hrun.
  pose proof (getitem_length _ _ _ Hab) as Lab.
  pose proof (getitem_length _ _ _ Hd) as Ld.
  assert (length half_AB_separations = length dobs) as Hlen by lia.
  destruct (sources_at_first_occurrences _ _ _ _ _ _ Hab Hrun)
    as (dobs' & Lab' & Hn & Hsrc).
  assert (source_index half_AB_separations dobs' = source_index half_AB_separations dobs)
    as Heq by (rewrite !source_index_unfold; do 3 f_equal; lia).
  rewrite Heq in *. clear dobs' Heq Lab'.
  split.
  - intros ii j s x Hs Hin Hx.
    destruct (Hsrc ii s Hs) as (lo & Hlo & Hlox & _).
    pose proof (lookup_lt_Some _ _ _ Hs) as Hii. rewrite Hn in Hii.
    assert (half_AB_separations !! lo = Some x) as Hlox'.
    { eapply (block_rows_share_AB _ dobs ii j);
        [done|by apply sorted_contiguous|done..]. }
    congruence.
  - intros i j s t Hij Hs Ht.
    destruct (Hsrc i s Hs) as (lo & Hlo & Hx & _).
    destruct (Hsrc j t Ht) as (lo' & Hlo' & Hy & _).
    assert (lo < lo') as Hlt.
    { eapply (sorted_lookup_lt _ i j);
        [by apply bounds_sorted|by apply bounds_NoDup|done..]. }
    pose proof (sorted_lookup_Qcle _ lo lo' _ _ Hsorted ltac:(lia) Hx Hy) as Hle.
    apply Qcle_lt_or_eq in Hle as [?|Heq]; [done|exfalso].
    destruct (Hsrc i s Hs) as (l1 & Hl1 & _ & E1).
    destruct (Hsrc j t Ht) as (l2 & Hl2 & _ & E2).
    rewrite Heq in E1. simplify_eq. lia.
Qed.

(** At the table [sounding], whose spacings are 1.5, 1.5, 3, 5, 5. *)
Lemma sorted_file_survey_sounding :
  getitem sounding "AB/2 (m)" = Some sounding_AB ∧
  getitem sounding "App. Res. (Ohm m)" = Some sounding_rho ∧
  StronglySorted Qcle sounding_AB ∧
  ∃ source_list,
    load_and_define_survey sounding "AB/2 (m)" "MN/2 (m)" "App. Res. (Ohm m)"
      = Some source_list ∧
    ∀ i j s t, i < j → source_list !! i = Some s → source_list !! j = Some t →
      (source_AB s < source_AB t)%Qc.
Proof.
  assert (getitem sounding "AB/2 (m)" = Some sounding_AB) as Hab
    by (vm_compute; reflexivity).
  assert (getitem sounding "App. Res. (Ohm m)" = Some sounding_rho) as Hd
    by (vm_compute; reflexivity).
  assert (StronglySorted Qcle sounding_AB) as Hsorted.
  { unfold sounding_AB. simpl. repeat (constructor; [|repeat constructor; by vm_compute]).
    constructor. }
  split_and!; [done..|]. survey_of sounding.
  split; [vm_compute; reflexivity|].
  eapply (sorted_file_survey sounding "AB/2 (m)" "MN/2 (m)" "App. Res. (Ohm m)"
            sounding_AB sounding_rho); [done..|vm_compute; reflexivity].
Defined.

(** ** Layers and mesh *)

Lemma mesh_cells_Some layer_thicknesses h :
  mesh_cells layer_thicknesses = Some h →
  ∃ bottom, last layer_thicknesses = Some bottom ∧ h = layer_thicknesses ++ [bottom].
Proof.
  unfold mesh_cells. destruct (last layer_thicknesses) as [bottom|]; [|done].
  simpl. intros [= <-]. by exists bottom.
Qed.

(** The mesh cell fails exactly on an empty array of thicknesses; otherwise
    the mesh has one cell more than there are thicknesses: the thicknesses
    themselves, then the deepest one again. *)
Theorem mesh_cells_extra_cell (layer_thicknesses : list Qc) :
  (mesh_cells layer_thicknesses = None ↔ layer_thicknesses = []) ∧
  (∀ h, mesh_cells layer_thicknesses = Some h →
     length h = length layer_thicknesses + 1 ∧
     take (length layer_thicknesses) h = layer_thicknesses ∧
     h !! length layer_thicknesses = last layer_thicknesses).
Proof.
  split.
  - unfold mesh_cells. induction layer_thicknesses as [|x l _] using rev_ind; [done|].
    rewrite last_snoc. simpl. split; [done|]. intros [_ ?]%app_eq_nil. done.
  - intros h (bottom & Hlast & ->)%mesh_cells_Some. split_and!.
    + rewrite length_app. simpl. lia.
    + by rewrite take_app_length.
    + by rewrite list_lookup_middle.
Qed.

(** The starting model has one value per cell of the mesh, all equal to the
    logarithm of the half-space resistivity: one value more than there are
    layer thicknesses. *)
Theorem starting_model_size (log : Qc → Qc) (halfspace_resistivity : Qc)
    (layer_thicknesses m : list Qc) :
  starting_model log halfspace_resistivity layer_thicknesses = Some m →
  length m = length layer_thicknesses + 1 ∧
  Forall (λ v, v = log halfspace_resistivity) m.
Proof.
  unfold starting_model. intros Hm.
  destruct (mesh_cells layer_thicknesses) as [h|] eqn:Hh; [|done].
  simpl in Hm. injection Hm as <-.
  apply mesh_cells_Some in Hh as (bottom & _ & ->). split.
  - rewrite length_fmap, length_replicate, length_app. simpl. lia.
  - apply Forall_fmap, Forall_forall. intros one ->%elem_of_replicate_inv. simpl.
    apply Qcmult_1_r.
Qed.

(** With 5.7 standing for log 300, on the thicknesses 5, 5.5, 6.05. *)
Lemma starting_model_size_three_layers :
  ∃ m,
    starting_model (λ _, Q2Qc 5.7) (Q2Qc 300) (Q2Qc <$> [5; 5.5; 6.05]%Q)
      = Some m ∧
    length m = 4 ∧
    Forall (λ v, v = Q2Qc 5.7) m.
Proof.
  eexists. split; [reflexivity|].
  match goal with
  | |- length ?m = _ ∧ _ =>
      destruct (starting_model_size (λ _, Q2Qc 5.7) (Q2Qc 300) (Q2Qc <$> [5; 5.5; 6.05]%Q) m)
        as [Hlen Hall]; [reflexivity|]
  end.
  split; [exact Hlen|exact Hall].
Defined.

(** ** The misfit curves *)

Lemma for_each_app {S} (body : S → nat → option S) l1 l2 (s : S) :
  for_each body (l1 ++ l2) s = for_each body l1 s ≫= for_each body l2.
Proof.
  revert s. induction l1 as [|ii l1 IH]; intros s; [done|].
  simpl. destruct (body s ii) as [s'|]; [apply IH|done].
Qed.

Lemma for_each_Some_body {S} (body : S → nat → option S) l (s s' : S) ii :
  for_each body l s = Some s' → ii ∈ l → ∃ s0, is_Some (body s0 ii).
Proof.
  revert s. induction l as [|x l IH]; intros s Hrun Hii; [by apply elem_of_nil in Hii|].
  simpl in Hrun. destruct (body s x) as [s1|] eqn:Hbody; [|done].
  apply elem_of_cons in Hii as [->|Hii]; [by exists s; rewrite Hbody|by eapply IH].
Qed.

Lemma misfit_body_Some outDict arrays ii arrays' :
  misfit_body outDict arrays ii = Some arrays' →
  ∃ record d m,
    outDict !! ii = Some record ∧ record !! "phi_d" = Some d ∧ record !! "phi_m" = Some m ∧
    ii - 1 < length arrays.1 ∧ ii - 1 < length arrays.2 ∧
    arrays' = (<[ii - 1 := d]> arrays.1, <[ii - 1 := m]> arrays.2).
Proof.
  unfold misfit_body, setitem. intros H.
  destruct (outDict !! ii) as [record|] eqn:Hrec; [|done]. simpl in H.
  destruct (record !! "phi_d") as [d|] eqn:Hd; [|done]. simpl in H.
  destruct (decide (ii - 1 < length arrays.1)); [|done]. simpl in H.
  destruct (record !! "phi_m") as [m|] eqn:Hm; [|done]. simpl in H.
  destruct (decide (ii - 1 < length arrays.2)); [|done]. simpl in H.
  injection H as <-. by exists record, d, m.
Qed.

(** After the first [m] passes the arrays hold the misfits of the
    iterations 1 to [m]. *)
Lemma misfit_loop_invariant (outDict : outDict_t) n m :
  (∀ ii, 1 ≤ ii ≤ n →
     ∃ record d v, outDict !! ii = Some record ∧
                   record !! "phi_d" = Some d ∧ record !! "phi_m" = Some v) →
  m ≤ n →
  ∃ phi_d phi_m,
    for_each (misfit_body outDict) (seq 1 m)
      (replicate n (Q2Qc 0), replicate n (Q2Qc 0)) = Some (phi_d, phi_m) ∧
    length phi_d = n ∧ length phi_m = n ∧
    ∀ i, i < m →
      ∃ record, outDict !! (i + 1) = Some record ∧
                record !! "phi_d" = phi_d !! i ∧ record !! "phi_m" = phi_m !! i.
Proof.
  intros Hkeys. induction m as [|m IH]; intros Hm.
  - eexists _, _. split; [done|]. rewrite !length_replicate. split_and!; [done..|].
    intros i Hi. lia.
  - destruct IH as (phi_d & phi_m & Hrun & Ld & Lm & Hval); [lia|].
    destruct (Hkeys (S m)) as (record & d & v & Hrec & Hd & Hv); [lia|].
    exists (<[m := d]> phi_d), (<[m := v]> phi_m).
    rewrite seq_S, for_each_app, Hrun. simpl. split_and!.
    + unfold misfit_body, setitem. rewrite Hrec. simpl. rewrite Hd, Hv. simpl.
      replace (m - 0) with m by lia.
      rewrite !decide_True by lia. done.
    + by rewrite length_insert.
    + by rewrite length_insert.
    + intros i Hi. destruct (decide (i = m)) as [->|Hne].
      * exists record. replace (m + 1) with (S m) by lia.
        by rewrite !list_lookup_insert_eq by lia.
      * destruct (Hval i) as (r & ? & ? & ?); [lia|]. exists r.
        by rewrite !list_lookup_insert_ne by done.
Qed.

(** When the iterations are keyed 1 to [n] and every record has its two
    misfits, the cell raises nothing, both arrays have one entry per
    iteration, and entry [i] holds the misfits of iteration [i + 1]: no zero
    of the initial arrays is left. *)
Theorem misfit_curves_filled (outDict : outDict_t) :
  (∀ ii, 1 ≤ ii ≤ size outDict →
     ∃ record d m, outDict !! ii = Some record ∧
                   record !! "phi_d" = Some d ∧ record !! "phi_m" = Some m) →
  ∃ phi_d phi_m,
    misfit_curves outDict = Some (phi_d, phi_m) ∧
    length phi_d = size outDict ∧ length phi_m = size outDict ∧
    ∀ i, i < size outDict →
      ∃ record, outDict !! (i + 1) = Some record ∧
                record !! "phi_d" = phi_d !! i ∧ record !! "phi_m" = phi_m !! i.
Proof.
  intros Hkeys. unfold misfit_curves.
  by apply (misfit_loop_invariant outDict (size outDict) (size outDict)).
Qed.

(** At two iterations keyed 1 and 2. *)
Lemma misfit_curves_filled_two_iterations :
  ∃ phi_d phi_m,
    misfit_curves two_iterations = Some (phi_d, phi_m) ∧
    length phi_d = 2 ∧ length phi_m = 2.
Proof.
  destruct (misfit_curves_filled two_iterations) as (phi_d & phi_m & Hrun & Ld & Lm & _).
  - intros ii Hii. change (size two_iterations) with 2 in Hii.
    assert (ii = 1 ∨ ii = 2) as [-> | ->] by lia; eexists _, _, _; split_and!; reflexivity.
  - by exists phi_d, phi_m.
Defined.

(** The cell runs only on a dict keyed by exactly the numbers 1 to its size:
    if it raises nothing, an iteration number is a key exactly when it lies
    between 1 and the number of entries.  A dict keyed from 0 is a KeyError. *)
Theorem misfit_curves_keys (outDict : outDict_t) (curves : list Qc * list Qc) :
  misfit_curves outDict = Some curves →
  ∀ ii, ii ∈ dom outDict ↔ 1 ≤ ii ≤ size outDict.
Proof.
  intros Hrun. unfold misfit_curves in Hrun.
  assert (set_seq 1 (size outDict) ⊆ dom outDict) as Hsub.
  { intros ii Hii%elem_of_set_seq.
    destruct (for_each_Some_body _ _ _ _ ii Hrun) as (s0 & [s1 Hbody]).
    - apply elem_of_seq. lia.
    - apply misfit_body_Some in Hbody as (record & _ & _ & Hrec & _).
      apply elem_of_dom. by exists record. }
  assert (set_seq 1 (size outDict) = dom outDict) as Heq.
  { apply set_subseteq_size_eq; [done|]. by rewrite size_set_seq, size_dom. }
  intros ii. rewrite <- Heq, elem_of_set_seq. lia.
Qed.

(** At two iterations keyed 1 and 2; keyed 0 and 1 the cell raises. *)
Lemma misfit_curves_keys_two_iterations :
  is_Some (misfit_curves two_iterations) ∧
  (∀ ii, ii ∈ dom two_iterations ↔ 1 ≤ ii ≤ size two_iterations) ∧
  misfit_curves two_iterations_from_zero = None.
Proof.
  destruct (misfit_curves two_iterations) as [curves|] eqn:Hrun; [|by vm_compute in Hrun].
  split_and!; [done| |vm_compute; reflexivity].
  by apply (misfit_curves_keys two_iterations curves).
Defined.

(** ** Parameters and plots *)

(** Of the user parameters of the smooth-inversion script, [chi_factor] is
    the only one no statement reads: the notebook documents it as controlling
    how closely the data are fitted and sets it to 1.0, but the target misfit
    is built with the literal [chifact=1]. *)
Lemma chi_factor_never_read :
  cell_bindings DC_1d_smooth_inversion_code 4
  = ["data_filename"; "half_AB_column"; "half_MN_column"; "apparent_resistivity_column";
     "uncertainty_column"; "uncertainty_floor"; "uncertainty_percent"; "chi_factor";
     "layer_thicknesses"; "halfspace_resistivity"] ∧
  never_read DC_1d_smooth_inversion_code (cell_bindings DC_1d_smooth_inversion_code 4)
  = ["chi_factor"] ∧
  mentions "- **chi_factor:** Controls how closely we fit the data in the inversion."
    DC_1d_smooth_inversion_code = true ∧
  script_namespace !! "chi_factor" = Some (PFloat 10 (-1)) ∧
  script_namespace !! "target_misfit"
  = Some (PCall (SimPEG_ "directives" "TargetMisfit") [] [("chifact", PInt 1)]).
Proof. split_and!; by_computation. Qed.

(** In the data-fit plot of the smooth-inversion script the first curve drawn
    is the predicted data [inv_prob.dpred] and the second the observed data
    [dobs], while the legend lists "Observed Sounding Curve" first: the two
    labels are exchanged. *)
Lemma data_fit_legend_exchanged :
  method_calls "ax" (cell_code DC_1d_smooth_inversion_code 25)
  = [("loglog", [EName "half_AB_separations"; EName "inv_prob" ~> "dpred"; EStr "k"]);
     ("loglog", [EName "half_AB_separations"; EName "dobs"; EStr "kx"]);
     ("set_xlabel", [EStr "AB/2 (m)"]);
     ("set_ylabel", [EStr "Apparent Resistivity ($\Omega m$)"]);
     ("legend", [EList [EStr "Observed Sounding Curve"; EStr "Predicted Sounding Curve"]]);
     ("set_ylim", [EInt 50; EInt 1000]);
     ("grid", [EBool true])] ∧
  legend (cell_code DC_1d_smooth_inversion_code 25)
  = [(EName "inv_prob" ~> "dpred", "Observed Sounding Curve");
     (EName "dobs", "Predicted Sounding Curve")].
Proof. split_and!; by_computation. Qed.

(** ** Shapes *)

(** Whichever branch assigns them, there is one uncertainty per datum, as
    [data.Data(survey, dobs=dobs, uncertainty=uncertainties)] needs. *)
Theorem uncertainties_one_per_datum (df : DataFrame)
    (apparent_resistivity_column : string) (uncertainty_column : option string)
    (uncertainty_floor uncertainty_percent : Qc) (dobs uncertainties : list Qc) :
  getitem df apparent_resistivity_column = Some dobs →
  assign_uncertainties df uncertainty_column uncertainty_floor uncertainty_percent dobs
    = Some uncertainties →
  length uncertainties = length dobs.
Proof.
  intros Hd Hu. pose proof (getitem_length _ _ _ Hd) as Ld.
  destruct uncertainty_column as [column|]; simpl in Hu.
  - apply getitem_length in Hu. lia.
  - injection Hu as <-. by rewrite length_fmap.
Qed.

(** At the table [sounding], taking the MN/2 column for the uncertainties. *)
Lemma uncertainties_one_per_datum_sounding :
  getitem sounding "App. Res. (Ohm m)" = Some sounding_rho ∧
  assign_uncertainties sounding (Some "MN/2 (m)") (Q2Qc 5) (Q2Qc 5) sounding_rho
    = Some sounding_MN ∧
  length sounding_MN = length sounding_rho.
Proof.
  assert (getitem sounding "App. Res. (Ohm m)" = Some sounding_rho) as Hd
    by (vm_compute; reflexivity).
  assert (assign_uncertainties sounding (Some "MN/2 (m)") (Q2Qc 5) (Q2Qc 5) sounding_rho
          = Some sounding_MN) as Hu by (vm_compute; reflexivity).
  split_and!; [done..|].
  exact (uncertainties_one_per_datum sounding "App. Res. (Ohm m)" (Some "MN/2 (m)")
           (Q2Qc 5) (Q2Qc 5) sounding_rho sounding_MN Hd Hu).
Defined.

(** ** The plotting notebook *)

Lemma file_curves_one_column df cab cmn c curves :
  file_curves df cab cmn [c] = Some curves →
  ∃ x y, getitem df cab = Some x ∧ getitem df c = Some y ∧ curves = [Curve x y].
Proof.
  unfold file_curves. intros H.
  destruct (getitem df cab) as [x|]; [|done].
  destruct (getitem df cmn) as [mn|]; [|done]. simpl in H.
  destruct (getitem df c) as [y|]; [|done]. simpl in H.
  injection H as <-. by exists x, y.
Qed.

(** With one apparent-resistivity column listed, as the notebook has it, a
    plot that succeeds has one curve per file, in the order of the file
    names, so that [ax.legend(data_filenames)] labels each curve with the
    file it was read from; a single string counts as one file. *)
Theorem plot_curves_labelled (files : gmap string DataFrame) (data_filenames : filenames)
    (half_AB_column half_MN_column apparent_resistivity_column : string)
    (curves : list curve) (labels : list string) :
  plot_sounding_data files data_filenames half_AB_column half_MN_column
    [apparent_resistivity_column] = Some (curves, labels) →
  labels = as_list data_filenames ∧
  length curves = length labels ∧
  ∀ i name, labels !! i = Some name →
    ∃ df x y, files !! name = Some df ∧
              getitem df half_AB_column = Some x ∧
              getitem df apparent_resistivity_column = Some y ∧
              curves !! i = Some (Curve x y).
Proof.
  unfold plot_sounding_data. intros H.
  destruct (mapM _ _) as [cs|] eqn:Hcs; [|done]. simpl in H. injection H as <- <-.
  apply mapM_Some in Hcs.
  assert (∀ i name, as_list data_filenames !! i = Some name →
            ∃ df x y, files !! name = Some df ∧ getitem df half_AB_column = Some x ∧
                      getitem df apparent_resistivity_column = Some y ∧
                      cs !! i = Some [Curve x y]) as Hfile.
  { intros i name Hname.
    pose proof (lookup_lt_Some _ _ _ Hname) as Hi.
    destruct (Forall2_lookup_l _ _ _ i i Hcs) as (c & Hc & Hbody);
      [by apply lookup_seq_lt|].
    rewrite Hname in Hbody. simpl in Hbody.
    destruct (files !! name) as [df|]; [|done]. simpl in Hbody.
    apply file_curves_one_column in Hbody as (x & y & ? & ? & ->).
    by exists df, x, y. }
  assert (mjoin cs = (λ c, default (Curve [] []) (head c)) <$> cs ∧
          ∀ i c, cs !! i = Some c → length c = 1) as [Hjoin Hone].
  { pose proof (Forall2_length _ _ _ Hcs) as Hlen. rewrite length_seq in Hlen.
    assert (∀ i c, cs !! i = Some c → length c = 1) as Hone.
    { intros i c Hc. pose proof (lookup_lt_Some _ _ _ Hc) as Hi.
      destruct (lookup_lt_is_Some_2 (as_list data_filenames) i) as [name Hname]; [lia|].
      destruct (Hfile i name Hname) as (df & x & y & _ & _ & _ & Hc'). by simplify_eq. }
    split; [|done]. clear -Hone. induction cs as [|c cs IH]; [done|].
    pose proof (Hone 0 c eq_refl) as Hc. destruct c as [|v [|]]; simplify_eq/=.
    f_equal. apply IH. intros i c Hc. by apply (Hone (S i)). }
  pose proof (Forall2_length _ _ _ Hcs) as Hlen. rewrite length_seq in Hlen.
  split_and!; [done| |].
  - rewrite Hjoin, length_fmap. lia.
  - intros i name Hname. destruct (Hfile i name Hname) as (df & x & y & ? & ? & ? & Hc).
    exists df, x, y. split_and!; [done..|]. by rewrite Hjoin, list_lookup_fmap, Hc.
Qed.

(** Two files, and one file given as a string. *)
Lemma plot_curves_labelled_two_files :
  ∃ curves,
    plot_sounding_data sounding_files (a_list ["site_1.csv"; "site_2.csv"])
      "AB/2 (m)" "MN/2 (m)" ["App. Res. (Ohm m)"]
    = Some (curves, ["site_1.csv"; "site_2.csv"]) ∧
    length curves = 2 ∧
    plot_sounding_data sounding_files (a_string "site_2.csv")
      "AB/2 (m)" "MN/2 (m)" ["App. Res. (Ohm m)"]
    = Some ([Curve scattered_AB scattered_rho], ["site_2.csv"]).
Proof.
  eexists. split; [vm_compute; reflexivity|]. split; [|vm_compute; reflexivity].
  match goal with
  | |- length ?c = _ =>
      destruct (plot_curves_labelled sounding_files (a_list ["site_1.csv"; "site_2.csv"])
                  "AB/2 (m)" "MN/2 (m)" "App. Res. (Ohm m)" c ["site_1.csv"; "site_2.csv"])
        as (_ & Hlen & _); [vm_compute; reflexivity|exact Hlen]
  end.
Defined.



(** ** The app notebooks *)

(** What the two app notebooks do is instantiate one app and call its
    methods, without arguments, one per step.  The parametric notebook is the
    only one that instantiates [DC1D3LayerApp]; on that object it calls, in
    this order, [interact_load_obs], [interact_1d_layer],
    [interact_run_inversion] and [interact_plot_inversion_results].  The
    smooth notebook is the only one that instantiates [DC1DInversionApp]; on
    that object it calls [interact_load_obs], [interact_plot_obs_data],
    [interact_set_mesh], [interact_set_uncertainty], [interact_run_inversion],
    [interact_plot_inversion_results], [interact_run_doi] and
    [interact_plot_doi_results]. *)
Theorem app_notebooks_steps :
  filter (λ nb, instantiates "DC1D3LayerApp" nb = true) repository
  = [parametric_inversion_app] ∧
  calls parametric_inversion_app
  = utils_app "DC1D3LayerApp"
    :: ((λ step, PCall (PAttr (utils_app "DC1D3LayerApp") step) [] [])
          <$> ["interact_load_obs"; "interact_1d_layer"; "interact_run_inversion";
               "interact_plot_inversion_results"]) ∧
  filter (λ nb, instantiates "DC1DInversionApp" nb = true) repository
  = [smooth_inversion_app] ∧
  calls smooth_inversion_app
  = utils_app "DC1DInversionApp"
    :: ((λ step, PCall (PAttr (utils_app "DC1DInversionApp") step) [] [])
          <$> ["interact_load_obs"; "interact_plot_obs_data"; "interact_set_mesh";
               "interact_set_uncertainty"; "interact_run_inversion";
               "interact_plot_inversion_results"; "interact_run_doi";
               "interact_plot_doi_results"]).
Proof. split_and!; by_computation. Qed.
